(** * dns64perf++ : the DnsTester engine (src/dnstester.cpp)

    A shallow embedding of the burst scheduler ([DnsTester::test], driven by
    the timer set up in [DnsTester::start]), of the answer correlator (the
    body of the receive loop of [DnsTester::start]) and of the two reporters
    ([DnsTester::display], [DnsTester::write]).

    Conventions.
    - C++ unsigned integers are [Z] with the wrap-around written out
      ([uint8], [uint16], [uint32], [uint64]); [int] arithmetic whose result
      the language leaves undefined is a partial operation ([option]).
    - [double] is IEEE 754 binary64, computed with the standard library's
      [SpecFloat] (precision 53, emax 1024).
    - Time points and durations are counts of nanoseconds in [Z].
    - A member function is a computation in the monad [M]: it threads the
      [DnsTester] object, may throw a [TestException] and may run into
      behaviour the language leaves undefined.
    - The sender and the receive loop are two threads; a run is an
      interleaving of their moves. [sender_move] takes an iteration of the
      loop of [test] apart at the points where the other thread can come
      in: the release of the lock, [sendto], the store of the send time and
      the increment under the lock. The loop of [start] is taken apart into
      the reading of the counter under the lock and the rest of its body,
      [receive]. What the two threads do to one record outside the lock is
      taken in some order, one access after the other. In [step] and
      [reachable] a move is one whole iteration of either loop.
    - [dnstester.h] (the class declarations, [dns64_addr_format_string]),
      the timer and the DNS packet parser are not part of the file modelled:
      the format string's scanner and the parsed answer are inputs, the
      timer is taken from its description. *)

From Stdlib Require Import ZArith Lia Bool Ascii String.
From Stdlib Require Import Floats.SpecFloat.
From stdpp Require Import base tactics option list.

Local Open Scope Z_scope.

(** ** Machine integers *)

Module CInt.

Definition uint8 (x : Z) : Z := x mod 2 ^ 8.
Definition uint16 (x : Z) : Z := x mod 2 ^ 16.
Definition uint32 (x : Z) : Z := x mod 2 ^ 32.
Definition uint64 (x : Z) : Z := x mod 2 ^ 64.

Definition INT_MIN : Z := - 2 ^ 31.
Definition INT_MAX : Z := 2 ^ 31 - 1.

Definition in_int (x : Z) : bool := (INT_MIN <=? x) && (x <=? INT_MAX).

(** Conversion of an unsigned 32-bit pattern to [int] (two's complement). *)
Definition to_int (x : Z) : Z :=
  let u := uint32 x in if u <=? INT_MAX then u else u - 2 ^ 32.

(** [a << k] on [int]: defined when [a] is not negative, [0 <= k < 32] and
    [a * 2^k] fits the unsigned type; the result is that value as an [int]. *)
Definition int_shl (a k : Z) : option Z :=
  if (0 <=? a) && (0 <=? k) && (k <? 32) && (a * 2 ^ k <? 2 ^ 32)
  then Some (to_int (a * 2 ^ k)) else None.

(** [a - b] on [int]: undefined on overflow. *)
Definition int_sub (a b : Z) : option Z :=
  if in_int (a - b) then Some (a - b) else None.

(** [a + b] on [int]: undefined on overflow. *)
Definition int_add (a b : Z) : option Z :=
  if in_int (a + b) then Some (a + b) else None.

(** [a << k] on [uint64_t]: defined when [0 <= k < 64]. *)
Definition u64_shl (a k : Z) : option Z :=
  if (0 <=? k) && (k <? 64) then Some (uint64 (a * 2 ^ k)) else None.

(** [a / b] on [uint32_t]: undefined when [b] is zero. *)
Definition u32_div (a b : Z) : option Z :=
  if b =? 0 then None else Some (a / b).

End CInt.
Import CInt.

(** ** Doubles *)

Module Double.

Definition prec : Z := 53.
Definition emax : Z := 1024.

Abbreviation double := spec_float.

(** Conversion of an integer to [double] (round to nearest even). *)
Definition of_Z (z : Z) : double := binary_normalize prec emax z 0 false.

Definition add : double -> double -> double := SFadd prec emax.
Definition sub : double -> double -> double := SFsub prec emax.
Definition mul : double -> double -> double := SFmul prec emax.
Definition div : double -> double -> double := SFdiv prec emax.
Definition sqrt : double -> double := SFsqrt prec emax.

Definition zero : double := S754_zero false.
Definition is_nan (x : double) : bool :=
  match x with S754_nan => true | _ => false end.

End Double.

(** ** Data model *)

(** [struct in6_addr] is sixteen octets; [sockaddr_in6] keeps the port in
    network byte order. *)
Record sockaddr_in6 := {
  sin6_addr : list Z;
  sin6_port : Z
}.

(** The four [%hhu] fields of [dns64_addr_format_string]. *)
Definition octets : Type := (Z * Z * Z * Z)%type.

(** [DnsQuery]. [rtt_] is [None] while the member holds no determinate
    value: the constructor's initialiser list names only [received_] and
    [answered_]. [time_sent_] is a [time_point], whose own default
    constructor is the clock's epoch. *)
Record DnsQuery := {
  time_sent_ : Z;
  received_ : bool;
  answered_ : bool;
  rtt_ : option Z
}.

Definition DnsQuery_new : DnsQuery :=
  {| time_sent_ := 0; received_ := false; answered_ := false; rtt_ := None |}.

(** [DnsTester]. [query_label_] is the first label of the template
    [query_], given by the four values last printed into it; [wire_] is the
    sequence of datagrams handed to [sendto], each given by its label. *)
Record DnsTester := {
  server_ : sockaddr_in6;
  ip_ : Z;
  netmask_ : Z;
  num_req_ : Z;
  num_burst_ : Z;
  burst_delay_ : Z;
  num_sent_ : Z;
  tests_ : list DnsQuery;
  query_label_ : octets;
  wire_ : list octets
}.

Definition set_query_label (l : octets) (t : DnsTester) : DnsTester :=
  {| server_ := server_ t; ip_ := ip_ t; netmask_ := netmask_ t;
     num_req_ := num_req_ t; num_burst_ := num_burst_ t;
     burst_delay_ := burst_delay_ t; num_sent_ := num_sent_ t;
     tests_ := tests_ t; query_label_ := l; wire_ := wire_ t |}.

Definition set_wire (w : list octets) (t : DnsTester) : DnsTester :=
  {| server_ := server_ t; ip_ := ip_ t; netmask_ := netmask_ t;
     num_req_ := num_req_ t; num_burst_ := num_burst_ t;
     burst_delay_ := burst_delay_ t; num_sent_ := num_sent_ t;
     tests_ := tests_ t; query_label_ := query_label_ t; wire_ := w |}.

Definition set_tests (qs : list DnsQuery) (t : DnsTester) : DnsTester :=
  {| server_ := server_ t; ip_ := ip_ t; netmask_ := netmask_ t;
     num_req_ := num_req_ t; num_burst_ := num_burst_ t;
     burst_delay_ := burst_delay_ t; num_sent_ := num_sent_ t;
     tests_ := qs; query_label_ := query_label_ t; wire_ := wire_ t |}.

Definition set_num_sent (n : Z) (t : DnsTester) : DnsTester :=
  {| server_ := server_ t; ip_ := ip_ t; netmask_ := netmask_ t;
     num_req_ := num_req_ t; num_burst_ := num_burst_ t;
     burst_delay_ := burst_delay_ t; num_sent_ := n;
     tests_ := tests_ t; query_label_ := query_label_ t; wire_ := wire_ t |}.

(** ** Exceptions and the monad of member functions *)

(** The [TestException]s thrown by [DnsTester::start], named as the
    specification names them. *)
Inductive TestException :=
  | UnexpectedSender (sender : sockaddr_in6)
  | InvalidAnswer
  | InvalidQuestion
  | IndexOutOfRange
  | RecvError.

Definition what (e : TestException) : string :=
  match e with
  | UnexpectedSender _ => "Received packet from other host than the DUT: "
  | InvalidAnswer => "Invalid answer from server, qdcount == 0"
  | InvalidQuestion => "Invalid question."
  | IndexOutOfRange => "Unexpected FQDN in question: too large."
  | RecvError => "Error in recvfrom: "
  end.

Inductive result (A : Type) :=
  | Ret (a : A) (t : DnsTester)
  | Throw (e : TestException) (t : DnsTester)
  | Undefined.
Arguments Ret {A} a t.
Arguments Throw {A} e t.
Arguments Undefined {A}.

Definition M (A : Type) : Type := DnsTester -> result A.

Definition ret {A} (a : A) : M A := fun t => Ret a t.

Definition bind {A B} (m : M A) (k : A -> M B) : M B :=
  fun t => match m t with
           | Ret a t' => k a t'
           | Throw e t' => Throw e t'
           | Undefined => Undefined
           end.

Definition throw {A} (e : TestException) : M A := fun t => Throw e t.
Definition get : M DnsTester := fun t => Ret t t.
Definition modify (f : DnsTester -> DnsTester) : M unit := fun t => Ret tt (f t).

(** A partial operation of the language: no value means undefined behaviour. *)
Definition defined {A} (o : option A) : M A :=
  fun t => match o with Some a => Ret a t | None => Undefined end.

Declare Scope tester_scope.
Delimit Scope tester_scope with tester.
Notation "x <- m ;; k" := (bind m (fun x => k))
  (at level 100, m at next level, right associativity) : tester_scope.
Notation "m ;;; k" := (bind m (fun _ => k))
  (at level 100, right associativity) : tester_scope.
Local Open Scope tester_scope.

(** [tests_[i]]: [std::vector::operator[]] is undefined out of range. *)
Definition tests_at (i : Z) : M DnsQuery :=
  t <- get ;;
  defined (if 0 <=? i then tests_ t !! Z.to_nat i else None).

(** Assignment through the reference [DnsQuery& query = tests_[i]]. *)
Definition tests_store (i : Z) (q : DnsQuery) : M unit :=
  modify (fun t => set_tests (<[Z.to_nat i := q]> (tests_ t)) t).

(** ** The constructor *)

Section Platform.

(** [htons] of <arpa/inet.h>. *)
Variable htons : Z -> Z.

(** The socket is created, bound and given its timeout; the records are
    created; the template is built for the address 0.0.0.0. The records are
    pushed by a loop counting in [int i]: this is the constructor for up to
    [INT_MAX] requests, beyond which the counter overflows. *)
Definition DnsTester_new (server_addr : list Z) (port ip netmask num_req
    num_burst burst_delay : Z) : DnsTester :=
  {| server_ := {| sin6_addr := server_addr; sin6_port := htons port |};
     ip_ := ip; netmask_ := netmask; num_req_ := num_req;
     num_burst_ := num_burst; burst_delay_ := burst_delay;
     num_sent_ := 0;
     tests_ := replicate (Z.to_nat num_req) DnsQuery_new;
     query_label_ := (0, 0, 0, 0);
     wire_ := [] |}.

End Platform.

(** ** The burst scheduler: [DnsTester::test] *)

(** The arguments of [snprintf] on line 142 (and 293). *)
Definition label_of_ip (ip : Z) : octets :=
  (Z.land (Z.shiftr ip 24) 255, Z.land (Z.shiftr ip 16) 255,
   Z.land (Z.shiftr ip 8) 255, Z.land ip 255).

(** [uint32_t ip = ip_ | num_sent_]. *)
Definition query_ip (ip n : Z) : Z := uint32 (Z.lor ip n).

(** [sendto]: the template goes out as it is; a short write is only
    reported on [std::cerr]. *)
Definition sendto : M unit :=
  modify (fun t => set_wire (wire_ t ++ [query_label_ t]) t).

(** One iteration of the loop of [test]; [now] is the clock's reading. *)
Definition test_body (now : Z) : M unit :=
  t <- get ;;
  query <- tests_at (num_sent_ t) ;;
  let ip := query_ip (ip_ t) (num_sent_ t) in
  modify (set_query_label (label_of_ip ip)) ;;;
  sendto ;;;
  tests_store (num_sent_ t)
    {| time_sent_ := now; received_ := received_ query;
       answered_ := answered_ query; rtt_ := rtt_ query |} ;;;
  modify (fun t' => set_num_sent (num_sent_ t' + 1) t').

(** The iterations [i .. i+n-1] of the loop of [test]. *)
Fixpoint test_loop (clock : nat -> Z) (i n : nat) : M unit :=
  match n with
  | O => ret tt
  | S n' => test_body (clock i) ;;; test_loop clock (S i) n'
  end.

(** [for (int i = 0; i < num_burst_; i++)]: [i] is an [int] compared with a
    [uint32_t]. Up to [INT_MAX] the loop makes [num_burst_] iterations;
    above it, the iterations [0 .. INT_MAX] are made and [i++] then
    overflows. *)
Definition test (clock : nat -> Z) : M unit :=
  t <- get ;;
  if num_burst_ t <=? INT_MAX
  then test_loop clock 0 (Z.to_nat (num_burst_ t))
  else (test_loop clock 0 (Z.to_nat (INT_MAX + 1)) ;;;
        defined (int_add INT_MAX 1) ;;; ret tt).

(** Modelled from the spec: the periodic timer ([Timer], declared outside
    [dnstester.cpp]) invokes its callback a fixed number of times, one burst
    delay apart. [Timer_run callback k n] is the invocations number
    [k .. k+n-1]. *)
Fixpoint Timer_run (callback : nat -> M unit) (k n : nat) : M unit :=
  match n with
  | O => ret tt
  | S n' => callback k ;;; Timer_run callback (S k) n'
  end.

(** The number of invocations [start] asks of the timer:
    [(size_t) (num_req_ / num_burst_)]. *)
Definition timer_count (t : DnsTester) : option Z :=
  u32_div (num_req_ t) (num_burst_ t).

(** The sending side of [start]: the timer is built and started.
    [clock k i] is the clock's reading in iteration [i] of tick [k]. *)
Definition start_timer (clock : nat -> nat -> Z) : M unit :=
  t <- get ;;
  n <- defined (timer_count t) ;;
  Timer_run (fun k => test (clock k)) 0 (Z.to_nat n).

(** ** The answer correlator: the body of the receive loop of [start] *)

(** The fields of the parsed answer ([DNSPacket]) that [start] reads: the
    header's QR, RCODE, QDCOUNT and ANCOUNT, and the text of the first label
    of the first question. *)
Record DNSPacket := {
  qr : Z;
  rcode : Z;
  qdcount : Z;
  ancount : Z;
  label0 : string
}.

Definition RCODE_NoError : Z := 0.

(** What one call of [recvfrom] brings. [Datagram]: the call returned
    [recvlen >= 0], the length of a datagram from [sender]; [answer] is what
    the parser makes of it and [time_received] the clock's reading taken
    right after; [errno_EWOULDBLOCK] tells whether [errno], which a call
    that succeeds leaves alone, reads [EWOULDBLOCK]. [TimedOut]: the call
    failed with [EWOULDBLOCK]. [RecvFailed]: it failed with another error. *)
Inductive recv_event :=
  | Datagram (recvlen : Z) (errno_EWOULDBLOCK : bool) (sender : sockaddr_in6)
      (answer : DNSPacket) (time_received : Z)
  | TimedOut
  | RecvFailed.

(** [ip = (temp[0] << 24) | (temp[1] << 16) | (temp[2] << 8) | temp[3]]:
    the [uint8_t]s are promoted to [int], the result is stored in a
    [uint32_t]. *)
Definition ip_of_temp (temp : octets) : option Z :=
  let '(t0, t1, t2, t3) := temp in
  a ← int_shl (uint8 t0) 24;
  b ← int_shl (uint8 t1) 16;
  c ← int_shl (uint8 t2) 8;
  Some (uint32 (Z.lor (Z.lor (Z.lor a b) c) (uint8 t3))).

(** [(1 << (32-netmask_))-1] of line 205, computed on [int]. *)
Definition host_mask_int (netmask : Z) : option Z :=
  k ← int_sub 32 netmask;
  s ← int_shl 1 k;
  int_sub s 1.

(** [((uint64_t) 1 << (32-netmask_))-1] of line 209. *)
Definition host_mask_u64 (netmask : Z) : option Z :=
  k ← int_sub 32 netmask;
  s ← u64_shl 1 k;
  Some (uint64 (s - 1)).

(** The index a 32-bit address decodes to (line 209). *)
Definition index_of_ip (netmask ip : Z) : option Z :=
  m ← host_mask_u64 netmask; Some (Z.land ip m).

Definition sender_is_server (sender server : sockaddr_in6) : bool :=
  bool_decide (sin6_addr sender = sin6_addr server)
  && (sin6_port sender =? sin6_port server).

(** Lines 212 to 216: what the correlator writes through the reference
    [query]. *)
Definition answer_record (answer : DNSPacket) (time_received : Z)
    (query : DnsQuery) : DnsQuery :=
  {| time_sent_ := time_sent_ query;
     received_ := true;
     answered_ := (qr answer =? 1) && (rcode answer =? RCODE_NoError)
                  && (0 <? ancount answer);
     rtt_ := Some (time_received - time_sent_ query) |}.

Section Correlator.

(** [sscanf(label, dns64_addr_format_string, temp, temp+1, temp+2, temp+3)]:
    the four values when all four fields are read, nothing otherwise. The
    format string is a constant of [dnstester.h]. *)
Variable sscanf_addr : string -> option octets.

(** Lines 196 to 200: the first label is copied into [char label[64]] and
    closed by a zero at its length; a label of 64 octets or more does not
    fit. *)
Definition copy_label (label : string) : option string :=
  if (String.length label <? 64)%nat then Some label else None.

(** Lines 189 to 216: what is done with a datagram from the server. *)
Definition correlate (answer : DNSPacket) (time_received : Z) : M unit :=
  t <- get ;;
  if qdcount answer <? 1 then throw InvalidAnswer else
  label <- defined (copy_label (label0 answer)) ;;
  match sscanf_addr label with
  | None => throw InvalidQuestion
  | Some temp =>
      ip <- defined (ip_of_temp temp) ;;
      m <- defined (host_mask_int (netmask_ t)) ;;
      if num_req_ t <=? Z.land ip (uint32 m) then throw IndexOutOfRange else
      i <- defined (index_of_ip (netmask_ t) ip) ;;
      query <- tests_at i ;;
      tests_store i (answer_record answer time_received query)
  end.

(** The [else] branch of line 217: [errno] decides. *)
Definition recvfrom_failed (errno_EWOULDBLOCK : bool) : M unit :=
  if errno_EWOULDBLOCK then ret tt else throw RecvError.

(** One iteration of the [while] loop, from [recvfrom] on. Only a datagram
    of at least one octet ([recvlen > 0], line 178) is looked at; an empty
    one goes the way of a failed call. *)
Definition receive (ev : recv_event) : M unit :=
  match ev with
  | Datagram recvlen errno_EWOULDBLOCK sender answer time_received =>
      if 0 <? recvlen then
        t <- get ;;
        if negb (sender_is_server sender (server_ t))
        then throw (UnexpectedSender sender)
        else correlate answer time_received
      else recvfrom_failed errno_EWOULDBLOCK
  | TimedOut => recvfrom_failed true
  | RecvFailed => recvfrom_failed false
  end.

(** The sender and the receive loop run side by side. Here a move is one
    whole iteration of either loop; [sender_move] below takes the sender's
    iteration apart. *)
Inductive step (t : DnsTester) : DnsTester -> Prop :=
  | step_send now t' : test_body now t = Ret tt t' -> step t t'
  | step_receive ev t' : receive ev t = Ret tt t' -> step t t'.

Inductive reachable (t0 : DnsTester) : DnsTester -> Prop :=
  | reachable_init : reachable t0 t0
  | reachable_step t t' : reachable t0 t -> step t t' -> reachable t0 t'.

End Correlator.

(** ** The reporters *)

(** What [display] hands to [printf]. *)
Record Summary := {
  sent : Z;
  num_received : Z;
  received_percent : Double.double;
  num_answered : Z;
  answered_percent : Double.double;
  average_ms : Double.double;
  standard_deviation_ms : Double.double
}.

(** Reading [rtt_.count()]: undefined while the member is indeterminate. *)
Definition rtt_count (query : DnsQuery) : M Z := defined (rtt_ query).

(** The first loop of [display]: two [uint16_t] counters. *)
Definition count_loop (tests : list DnsQuery) : Z * Z :=
  foldl (fun '(num_received, num_answered) query =>
           (if received_ query then uint16 (num_received + 1) else num_received,
            if answered_ query then uint16 (num_answered + 1) else num_answered))
        (0, 0) tests.

Fixpoint average_loop (num_received : Z) (tests : list DnsQuery)
    (average : Double.double) : M Double.double :=
  match tests with
  | [] => ret average
  | query :: tests' =>
      if received_ query then
        r <- rtt_count query ;;
        average_loop num_received tests'
          (Double.add average (Double.div (Double.of_Z r) (Double.of_Z num_received)))
      else average_loop num_received tests' average
  end.

Section Display.

(** [pow] of <cmath>. *)
Variable pow : Double.double -> Double.double -> Double.double.

Fixpoint deviation_loop (average : Double.double) (tests : list DnsQuery)
    (standard_deviation : Double.double) : M Double.double :=
  match tests with
  | [] => ret standard_deviation
  | query :: tests' =>
      if received_ query then
        r <- rtt_count query ;;
        deviation_loop average tests'
          (Double.add standard_deviation
             (pow (Double.sub (Double.of_Z r) average) (Double.of_Z 2)))
      else deviation_loop average tests' standard_deviation
  end.

Definition display : M Summary :=
  t <- get ;;
  let '(num_received, num_answered) := count_loop (tests_ t) in
  average <- average_loop num_received (tests_ t) Double.zero ;;
  standard_deviation <- deviation_loop average (tests_ t) Double.zero ;;
  let standard_deviation :=
    Double.sqrt (Double.div standard_deviation (Double.of_Z num_received)) in
  let size := Z.of_nat (length (tests_ t)) in
  ret {| sent := size;
         num_received := num_received;
         received_percent :=
           Double.mul (Double.div (Double.of_Z num_received) (Double.of_Z size))
                      (Double.of_Z 100);
         num_answered := num_answered;
         answered_percent :=
           Double.div (Double.of_Z num_answered) (Double.of_Z size);
         average_ms := Double.div average (Double.of_Z 1000000);
         standard_deviation_ms :=
           Double.div standard_deviation (Double.of_Z 1000000) |}.

End Display.

(** One line of the report file: the label of the query name, the send
    time, the two flags and the round-trip time. The two times are [long]
    counts printed with [%lu], that is, as 64-bit unsigned numbers. *)
Record row := {
  row_label : octets;
  row_tsent : Z;
  row_received : bool;
  row_answered : bool;
  row_rtt : Z
}.

(** The loop of [write]; [n] is the running [int n], converted to
    [uint32_t] in [ip_ | n++] and then incremented as an [int]. *)
Fixpoint write_loop (ip : Z) (n : Z) (tests : list DnsQuery) : M (list row) :=
  match tests with
  | [] => ret []
  | query :: tests' =>
      let ip' := uint32 (Z.lor ip (uint32 n)) in
      n' <- defined (int_add n 1) ;;
      r <- rtt_count query ;;
      rows <- write_loop ip n' tests' ;;
      ret ({| row_label := label_of_ip ip';
              row_tsent := uint64 (time_sent_ query);
              row_received := received_ query;
              row_answered := answered_ query;
              row_rtt := uint64 r |} :: rows)
  end.

(** [write]: the rows of the report, in order. The header block of the
    file and the failures of [inet_ntop] and [fopen] are left out. *)
Definition write : M (list row) :=
  t <- get ;;
  write_loop (ip_ t) 0 (tests_ t).

(** ** A run to evaluate the model on

    Four requests in bursts of two towards 192.0.2.0/24; the server answers
    the queries number 0 and 2, after 10 ms and after 20 ms. *)

Module Scenario.

(** [htons] on a little-endian host. *)
Definition htons (port : Z) : Z :=
  Z.lor (Z.shiftl (Z.land port 255) 8) (Z.land (Z.shiftr port 8) 255).

(** A scanner given by the table of the labels it reads. *)
Fixpoint sscanf_table (table : list (string * octets)) (label : string)
    : option octets :=
  match table with
  | [] => None
  | (l, temp) :: table' =>
      if String.eqb l label then Some temp else sscanf_table table' label
  end.

Definition sscanf_addr : string -> option octets :=
  sscanf_table [("192-0-2-0", (192, 0, 2, 0)); ("192-0-2-1", (192, 0, 2, 1));
                ("192-0-2-2", (192, 0, 2, 2)); ("192-0-2-3", (192, 0, 2, 3));
                ("0-0-0-5", (0, 0, 0, 5)); ("0-0-0-0", (0, 0, 0, 0))]%string.

(** [pow] on the one exponent [display] uses. *)
Definition pow (x y : Double.double) : Double.double := Double.mul x x.

(** 2001:db8::1, port 53. *)
Definition dut_addr : list Z := [32; 1; 13; 184; 0; 0; 0; 0; 0; 0; 0; 0; 0; 0; 0; 1].
Definition dut : sockaddr_in6 := {| sin6_addr := dut_addr; sin6_port := htons 53 |}.

(** 192.0.2.0 *)
Definition base_ip : Z := 3221225984.

Definition tester : DnsTester := DnsTester_new htons dut_addr 53 base_ip 24 4 2 1000000.

(** The bursts leave at 0 ms and at 1 ms. *)
Definition clock (tick i : nat) : Z := Z.of_nat tick * 1000000.

Definition response (label : string) : DNSPacket :=
  {| qr := 1; rcode := RCODE_NoError; qdcount := 1; ancount := 1; label0 := label |}.

Definition all_sent : M unit := start_timer clock.

(** A datagram of 64 octets from [sender], with [errno] not reading
    [EWOULDBLOCK]. *)
Definition datagram (sender : sockaddr_in6) (answer : DNSPacket)
    (time_received : Z) : recv_event :=
  Datagram 64 false sender answer time_received.

Definition two_answers : M unit :=
  all_sent ;;;
  receive sscanf_addr (datagram dut (response "192-0-2-0") 10000000) ;;;
  receive sscanf_addr (datagram dut (response "192-0-2-2") 21000000).

(** The tester a computation leaves behind. *)
Definition after (m : M unit) (t : DnsTester) : DnsTester :=
  match m t with Ret _ t' => t' | Throw _ t' => t' | Undefined => t end.

Definition sent_all : DnsTester := Eval vm_compute in after all_sent tester.

Definition answered_twice : DnsTester := Eval vm_compute in after two_answers tester.

(** The first query out and answered at once. *)
Definition first_answer : recv_event :=
  datagram dut (response "192-0-2-0") 10000000.

Definition first_answered : DnsTester :=
  Eval vm_compute in after (test_body 0 ;;; receive sscanf_addr first_answer) tester.

Definition answered_once : DnsTester :=
  Eval vm_compute in after (receive sscanf_addr first_answer) sent_all.

(** The server's address, another port. *)
Definition stranger : sockaddr_in6 :=
  {| sin6_addr := dut_addr; sin6_port := htons 5353 |}.

(** One request, no prefix at all, and an answer naming 0.0.0.5. *)
Definition whole_space : DnsTester := DnsTester_new htons dut_addr 53 0 0 1 1 1000000.

Definition stray_answer : M unit :=
  all_sent ;;;
  receive sscanf_addr (datagram dut (response "0-0-0-5") 10000000).


End Scenario.

(** ** The iteration of [test], lock by lock *)

(** The assignment [query.time_sent_ = now] of line 150. *)
Definition stamped (now : Z) (query : DnsQuery) : DnsQuery :=
  {| time_sent_ := now; received_ := received_ query;
     answered_ := answered_ query; rtt_ := rtt_ query |}.

(** Where the sender stands in an iteration of its loop: before line 136;
    after line 144, the template rewritten and the lock released; after
    line 146, the datagram handed to [sendto]; after line 150, the send
    time stored. *)
Inductive sender_pc := Idle | Labelled | Sent | Stamped.

(** One move of the sender from where it stands; [now] is the clock's
    reading, used by the move from [Sent]. *)
Definition sender_move (now : Z) (pc : sender_pc) : M sender_pc :=
  match pc with
  | Idle =>
      t <- get ;;
      query <- tests_at (num_sent_ t) ;;
      modify (set_query_label (label_of_ip (query_ip (ip_ t) (num_sent_ t)))) ;;;
      ret Labelled
  | Labelled => sendto ;;; ret Sent
  | Sent =>
      t <- get ;;
      query <- tests_at (num_sent_ t) ;;
      tests_store (num_sent_ t) (stamped now query) ;;;
      ret Stamped
  | Stamped =>
      modify (fun t' => set_num_sent (num_sent_ t' + 1) t') ;;;
      ret Idle
  end.

(** How many datagrams are out beyond what the counter says. *)
Definition in_flight (pc : sender_pc) : Z :=
  match pc with Idle | Labelled => 0 | Sent | Stamped => 1 end.

Section FineSteps.

Variable sscanf_addr : string -> option octets.

(** The two threads side by side, the sender move by move. *)
Inductive fine_step : DnsTester * sender_pc -> DnsTester * sender_pc -> Prop :=
  | fine_send now t pc t' pc' :
      sender_move now pc t = Ret pc' t' -> fine_step (t, pc) (t', pc')
  | fine_receive ev t pc t' :
      receive sscanf_addr ev t = Ret tt t' -> fine_step (t, pc) (t', pc).

Inductive fine_reachable (t0 : DnsTester) : DnsTester * sender_pc -> Prop :=
  | fine_reachable_init : fine_reachable t0 (t0, Idle)
  | fine_reachable_step c c' :
      fine_reachable t0 c -> fine_step c c' -> fine_reachable t0 c'.

End FineSteps.

(** ** The receive loop of [start] *)

(** [size_t remaining = num_req_ - num_sent_]: the difference of the two
    32-bit counters. *)
Definition remaining (t : DnsTester) : Z := uint32 (num_req_ t - num_sent_ t).

(** One passage through the [while] loop of [start], with what the sender
    does meanwhile: the moves it makes before the loop reads the counter
    ([before], the clock's reading at each move), those it makes after
    that, while [recvfrom] waits ([during]), and what [recvfrom] brings in
    the end. *)
Record iteration := {
  before : list Z;
  during : list Z;
  event : recv_event
}.

(** A passage during which the sender does nothing. *)
Definition Receiver (ev : recv_event) : iteration :=
  {| before := []; during := []; event := ev |}.

(** The sender's moves, one after the other, from where it stands. *)
Fixpoint sends (nows : list Z) (pc : sender_pc) : M sender_pc :=
  match nows with
  | [] => ret pc
  | now :: nows' => pc' <- sender_move now pc ;; sends nows' pc'
  end.

Section ReceiveLoop.

Variable sscanf_addr : string -> option octets.

(** The body of the [while] loop: the counter is read under the lock
    (lines 170 to 175), then [recvfrom] is waited for and what it brings is
    dealt with (lines 176 to 224). The value is [continue_receiving] and
    where the sender stands in the end. *)
Definition loop_body (it : iteration) (pc : sender_pc)
    : M (bool * sender_pc) :=
  pc1 <- sends (before it) pc ;;
  t <- get ;;
  let continue_receiving := negb (remaining t =? 0) in
  pc2 <- sends (during it) pc1 ;;
  receive sscanf_addr (event it) ;;;
  ret (continue_receiving, pc2).

(** [start] from the loop on, along a schedule. The value is [false] when
    the loop has been left, [true] when the schedule ends with the loop
    still going. *)
Fixpoint run_from (pc : sender_pc) (moves : list iteration) : M bool :=
  match moves with
  | [] => ret true
  | it :: moves' =>
      r <- loop_body it pc ;;
      if r.1 then run_from r.2 moves' else ret false
  end.

(** The sender has not begun an iteration when [start] enters its loop. *)
Definition run (moves : list iteration) : M bool := run_from Idle moves.

End ReceiveLoop.

(** ** The question of the template (the constructor, lines 112 to 128) *)

(** [snprintf(query_addr, sizeof(query_addr), "%s.%s.", addr, domain)] with
    [char query_addr[512]]: at most 511 characters are kept. *)
Definition query_addr_of (addr domain : string) : string :=
  String.substring 0 511 (addr ++ "." ++ domain ++ ".")%string.

Definition is_dot (c : Ascii.ascii) : bool := Ascii.eqb c "."%char.

(** [strtok(query_addr, ".")] and the calls [strtok(nullptr, ".")] after
    it: the runs of characters other than the dot, in order, empty runs
    left out. [token] is the run being read. *)
Fixpoint strtok_all (s token : string) : list string :=
  match s with
  | EmptyString => if String.eqb token "" then [] else [token]
  | String c s' =>
      if is_dot c
      then (if String.eqb token "" then strtok_all s' ""
            else token :: strtok_all s' "")
      else strtok_all s' (token ++ String c "")
  end.

Definition bytes_of (label : string) : list Z :=
  (fun c => Z.of_N (Ascii.N_of_ascii c)) <$> list_ascii_of_string label.

(** The [while] loop over the labels and the closing zero: each label goes
    out as [strlen(label)], stored in one octet, and its characters. *)
Fixpoint encode_labels (labels : list string) : list Z :=
  match labels with
  | [] => [0]
  | label :: labels' =>
      uint8 (Z.of_nat (String.length label))
        :: bytes_of label ++ encode_labels labels'
  end.

(** [*reinterpret_cast<uint16_t*>(question) = htons(v)]: the two octets of
    [v], the high one first. *)
Definition store_htons (v : Z) : list Z :=
  [Z.land (Z.shiftr v 8) 255; Z.land v 255].

(** What the constructor writes after the header; [qtype] and [qclass] are
    [QType::AAAA] and [QClass::IN]. *)
Definition question_bytes (qtype qclass : Z) (query_addr : string) : list Z :=
  encode_labels (strtok_all query_addr "") ++ store_htons qtype
    ++ store_htons qclass.

(** A name written out: every label followed by a dot. *)
Definition fqdn (labels : list string) : string :=
  foldr (fun label s => (label ++ "." ++ s)%string) EmptyString labels.

(** A label [strtok] can return: not empty, no dot in it. *)
Definition plain_label (label : string) : Prop :=
  label <> EmptyString /\
  Forall (fun c => is_dot c = false) (list_ascii_of_string label).

(** A label [strlen] of which fits the length octet and is not zero. *)
Definition short_label (label : string) : Prop :=
  (0 < String.length label < 256)%nat.

(** ** More states of the run *)

Module Examples.

(** The first tick of the run, every reading of the clock being 7. *)
Definition first_burst : DnsTester :=
  Eval vm_compute in Scenario.after (test (fun _ => 7)) Scenario.tester.


(** A second answer to the first query, this one a server failure. *)
Definition servfail : DNSPacket :=
  {| qr := 1; rcode := 2; qdcount := 1; ancount := 0; label0 := "192-0-2-0" |}.

Definition second_answer : recv_event :=
  Scenario.datagram Scenario.dut servfail 30000000.

Definition answered_again : DnsTester :=
  Eval vm_compute in
    Scenario.after (receive Scenario.sscanf_addr second_answer)
      Scenario.answered_once.

(** The first query handed to [sendto], its send time not yet stored. *)
Definition first_in_flight : DnsTester :=
  Eval vm_compute in
    Scenario.after (sends [0; 0] Idle ;;; ret tt) Scenario.tester.

(** All four queries out at the epoch, move by move. *)
Definition sent_early : DnsTester :=
  Eval vm_compute in
    Scenario.after
      (sends [0; 0; 0; 0; 0; 0; 0; 0; 0; 0; 0; 0; 0; 0; 0; 0] Idle ;;; ret tt)
      Scenario.tester.

(** The first query then answered twice. *)
Definition answered_again_early : DnsTester :=
  Eval vm_compute in
    Scenario.after
      (receive Scenario.sscanf_addr Scenario.first_answer ;;;
       receive Scenario.sscanf_addr second_answer)
      sent_early.

(** Five requests in bursts of two, after the timer's two ticks. *)
Definition five_by_two : DnsTester :=
  Eval vm_compute in
    Scenario.after (start_timer Scenario.clock)
      (DnsTester_new Scenario.htons Scenario.dut_addr 53 Scenario.base_ip 24 5 2
         1000000).

(** All four queries of the run out and answered, 10 ms after the epoch. *)
Definition answer_to (label : string) : recv_event :=
  Scenario.datagram Scenario.dut (Scenario.response label) 10000000.

Definition all_answered : DnsTester :=
  Eval vm_compute in
    Scenario.after
      (receive Scenario.sscanf_addr (answer_to "192-0-2-0") ;;;
       receive Scenario.sscanf_addr (answer_to "192-0-2-1") ;;;
       receive Scenario.sscanf_addr (answer_to "192-0-2-2") ;;;
       receive Scenario.sscanf_addr (answer_to "192-0-2-3"))
      Scenario.sent_all.

End Examples.

(** ** Vocabulary of the statements *)

(** What [test] and the timer leave alone. *)
Definition same_setup (t t' : DnsTester) : Prop :=
  server_ t' = server_ t /\ ip_ t' = ip_ t /\ netmask_ t' = netmask_ t /\
  num_req_ t' = num_req_ t /\ num_burst_ t' = num_burst_ t /\
  length (tests_ t') = length (tests_ t).

(** The labels of the queries number [n .. n+k-1]. *)
Definition burst_labels (ip n k : Z) : list octets :=
  (fun j => label_of_ip (query_ip ip j)) <$> seqZ n k.

(** What holds of the counter and of the wire wherever the sender stands:
    the datagrams out are the queries number 0 up to the counter, the one
    in flight included. *)
Definition fine_inv (ip num_req : Z) (c : DnsTester * sender_pc) : Prop :=
  ip_ c.1 = ip /\ num_req_ c.1 = num_req /\
  Z.of_nat (length (tests_ c.1)) = num_req /\
  0 <= num_sent_ c.1 /\ num_sent_ c.1 + in_flight c.2 <= num_req /\
  wire_ c.1 = burst_labels ip 0 (num_sent_ c.1 + in_flight c.2) /\
  (c.2 <> Idle -> num_sent_ c.1 < num_req) /\
  (c.2 = Labelled ->
   query_label_ c.1 = label_of_ip (query_ip ip (num_sent_ c.1))).

(** A row of the report against the record it is printed from: [%lu]
    prints the two counts of nanoseconds as unsigned 64-bit numbers. *)
Definition row_of (r : row) (query : DnsQuery) : Prop :=
  row_tsent r = uint64 (time_sent_ query) /\
  row_received r = received_ query /\
  row_answered r = answered_ query /\
  exists rtt, rtt_ query = Some rtt /\ row_rtt r = uint64 rtt.

(** The two ways a record changes after setup. *)
Inductive touched (query : DnsQuery) : DnsQuery -> Prop :=
  | touched_sent now :
      touched query {| time_sent_ := now; received_ := received_ query;
                       answered_ := answered_ query; rtt_ := rtt_ query |}
  | touched_answered answer time_received :
      touched query (answer_record answer time_received query).

(** The number of records a flag holds of. *)
Definition true_count (flag : DnsQuery -> bool) (tests : list DnsQuery) : Z :=
  Z.of_nat (length (List.filter flag tests)).


(** * Properties *)

(** ** The burst scheduler *)

Lemma same_setup_refl t : same_setup t t.
Proof. by repeat split. Qed.

Lemma same_setup_trans t1 t2 t3 :
  same_setup t1 t2 -> same_setup t2 t3 -> same_setup t1 t3.
Proof.
  unfold same_setup. intros (?&?&?&?&?&?) (?&?&?&?&?&?).
  repeat split; congruence.
Qed.

Lemma burst_labels_cons ip n k :
  0 < k ->
  burst_labels ip n k = label_of_ip (query_ip ip n) :: burst_labels ip (n + 1) (k - 1).
Proof.
  intros Hk. unfold burst_labels. rewrite seqZ_cons by lia.
  rewrite fmap_cons. do 3 f_equal; lia.
Qed.

Lemma burst_labels_app ip n k1 k2 :
  0 <= k1 -> 0 <= k2 ->
  burst_labels ip n (k1 + k2) = burst_labels ip n k1 ++ burst_labels ip (n + k1) k2.
Proof.
  intros H1 H2. unfold burst_labels. rewrite seqZ_app by lia. by rewrite fmap_app.
Qed.

Lemma length_burst_labels ip n k :
  0 <= k -> Z.of_nat (length (burst_labels ip n k)) = k.
Proof. intros Hk. unfold burst_labels. rewrite length_fmap, length_seqZ. lia. Qed.

(** One query goes out when its record exists. *)
Lemma test_body_sends now t :
  0 <= num_sent_ t < Z.of_nat (length (tests_ t)) ->
  exists t', test_body now t = Ret tt t' /\
    num_sent_ t' = num_sent_ t + 1 /\
    wire_ t' = wire_ t ++ [label_of_ip (query_ip (ip_ t) (num_sent_ t))] /\
    same_setup t t'.
Proof.
  intros [Hlo Hhi].
  destruct (lookup_lt_is_Some_2 (tests_ t) (Z.to_nat (num_sent_ t))) as [q Hq];
    [lia|].
  unfold test_body, tests_at, bind, get, defined, modify, sendto, tests_store.
  destruct (Z.leb_spec 0 (num_sent_ t)); [|lia].
  rewrite Hq. simpl. eexists. split; [reflexivity|].
  unfold set_num_sent, set_tests, set_wire, set_query_label; simpl.
  repeat split. apply length_insert.
Qed.

Lemma test_loop_sends clock n : forall i t,
  0 <= num_sent_ t ->
  num_sent_ t + Z.of_nat n <= Z.of_nat (length (tests_ t)) ->
  exists t', test_loop clock i n t = Ret tt t' /\
    num_sent_ t' = num_sent_ t + Z.of_nat n /\
    wire_ t' = wire_ t ++ burst_labels (ip_ t) (num_sent_ t) (Z.of_nat n) /\
    same_setup t t'.
Proof.
  induction n as [|n IH]; intros i t Hlo Hhi.
  - exists t. simpl. unfold ret, burst_labels. simpl.
    rewrite app_nil_r, Z.add_0_r. auto using same_setup_refl.
  - destruct (test_body_sends (clock i) t) as (t1 & E1 & Hs1 & Hw1 & Hc1); [lia|].
    destruct (IH (S i) t1) as (t2 & E2 & Hs2 & Hw2 & Hc2).
    { lia. }
    { destruct Hc1 as (_&_&_&_&_&Hl). rewrite Hl. lia. }
    exists t2. split.
    { simpl. unfold bind at 1. by rewrite E1. }
    split; [lia|]. split; [|by eapply same_setup_trans].
    rewrite Hw2, Hw1, <- app_assoc. f_equal.
    rewrite (burst_labels_cons _ (num_sent_ t)) by lia.
    destruct Hc1 as (_&Hip&_). rewrite Hip, Hs1. simpl. do 2 f_equal. lia.
Qed.

(** A tick with a whole burst of records left sends the whole burst. *)
Lemma test_sends_burst clock t :
  0 <= num_sent_ t -> 0 <= num_burst_ t <= INT_MAX ->
  num_sent_ t + num_burst_ t <= Z.of_nat (length (tests_ t)) ->
  exists t', test clock t = Ret tt t' /\
    num_sent_ t' = num_sent_ t + num_burst_ t /\
    wire_ t' = wire_ t ++ burst_labels (ip_ t) (num_sent_ t) (num_burst_ t) /\
    same_setup t t'.
Proof.
  intros Hlo Hb Hhi.
  destruct (test_loop_sends clock (Z.to_nat (num_burst_ t)) 0%nat t)
    as (t' & E & Hs & Hw & Hc); [lia|lia|].
  rewrite Z2Nat.id in Hs, Hw by lia. exists t'. split; [|done].
  unfold test, bind, get.
  destruct (Z.leb_spec (num_burst_ t) INT_MAX); [exact E|lia].
Qed.

Lemma Timer_run_bursts clock n : forall k t,
  0 <= num_sent_ t -> 0 <= num_burst_ t <= INT_MAX ->
  num_sent_ t + Z.of_nat n * num_burst_ t <= Z.of_nat (length (tests_ t)) ->
  exists t', Timer_run (fun j => test (clock j)) k n t = Ret tt t' /\
    num_sent_ t' = num_sent_ t + Z.of_nat n * num_burst_ t /\
    wire_ t' = wire_ t ++
      burst_labels (ip_ t) (num_sent_ t) (Z.of_nat n * num_burst_ t) /\
    same_setup t t'.
Proof.
  induction n as [|n IH]; intros k t Hlo Hb Hhi.
  - exists t. simpl. unfold ret, burst_labels. simpl.
    rewrite app_nil_r, Z.add_0_r. auto using same_setup_refl.
  - destruct (test_sends_burst (clock k) t) as (t1 & E1 & Hs1 & Hw1 & Hc1);
      [lia|lia|nia|].
    pose proof Hc1 as (_&Hip&_&_&Hnb&Hl).
    destruct (IH (S k) t1) as (t2 & E2 & Hs2 & Hw2 & Hc2).
    { lia. } { lia. } { rewrite Hl, Hnb. nia. }
    exists t2. split.
    { simpl. unfold bind at 1. by rewrite E1. }
    split; [rewrite Hs2, Hs1, Hnb; nia|].
    split; [|by eapply same_setup_trans].
    rewrite Hw2, Hw1, <- app_assoc, Hip, Hnb, Hs1. f_equal.
    replace (Z.of_nat (S n) * num_burst_ t)
      with (num_burst_ t + Z.of_nat n * num_burst_ t) by lia.
    apply eq_sym, burst_labels_app; nia.
Qed.

(** Whole bursts: [start] asks the timer for [num_req_ / num_burst_]
    invocations (the quotient rounded down) and every invocation of [test]
    sends exactly [num_burst_] queries; after [k] ticks the queries number
    [0 .. k * num_burst_ - 1] have gone out, in order. All requests are sent
    when the burst size divides their number. *)
Lemma scheduler_sends_whole_bursts htons server_addr port ip netmask
    num_req num_burst burst_delay clock :
  0 <= num_req <= INT_MAX -> 0 < num_burst <= INT_MAX ->
  let t0 := DnsTester_new htons server_addr port ip netmask num_req num_burst
              burst_delay in
  let ticks := num_req / num_burst in
  timer_count t0 = Some ticks /\
  start_timer clock t0
    = Timer_run (fun j => test (clock j)) 0 (Z.to_nat ticks) t0 /\
  (forall k, 0 <= k <= ticks -> exists tk,
      Timer_run (fun j => test (clock j)) 0 (Z.to_nat k) t0 = Ret tt tk /\
      num_sent_ tk = k * num_burst /\
      wire_ tk = burst_labels ip 0 (k * num_burst)) /\
  (num_req mod num_burst = 0 -> ticks * num_burst = num_req).
Proof.
  intros Hreq Hburst t0 ticks.
  assert (Hcount : timer_count t0 = Some ticks).
  { unfold timer_count, u32_div. simpl.
    destruct (Z.eqb_spec num_burst 0); [lia|done]. }
  split; [exact Hcount|]. split.
  { unfold start_timer, bind, get, defined. by rewrite Hcount. }
  split.
  - intros k Hk.
    assert (Hle : k * num_burst <= num_req).
    { pose proof (Z.mul_div_le num_req num_burst). nia. }
    destruct (Timer_run_bursts clock (Z.to_nat k) 0%nat t0)
      as (tk & E & Hs & Hw & _).
    { simpl; lia. } { simpl; lia. }
    { simpl. rewrite length_replicate. lia. }
    exists tk. simpl in Hs, Hw. rewrite Z2Nat.id in Hs, Hw by lia. done.
  - intros Hmod. subst ticks. pose proof (Z.div_mod num_req num_burst). lia.
Qed.

(** ** Addresses and indices *)

Lemma uint32_land x : uint32 x = Z.land x (Z.ones 32).
Proof. unfold uint32. by rewrite Z.land_ones. Qed.

Lemma uint32_id x : 0 <= x < 2 ^ 32 -> uint32 x = x.
Proof. intros H. unfold uint32. by apply Z.mod_small. Qed.

Lemma uint32_lor x y : uint32 (Z.lor x y) = Z.lor (uint32 x) (uint32 y).
Proof. rewrite !uint32_land. apply Z.land_lor_distr_l. Qed.

Lemma uint32_to_int x : uint32 (to_int x) = uint32 x.
Proof.
  unfold to_int. destruct (uint32 x <=? INT_MAX).
  - unfold uint32. by rewrite Z.mod_mod.
  - unfold uint32.
    replace (x mod 2 ^ 32 - 2 ^ 32) with (x mod 2 ^ 32 + (-1) * 2 ^ 32) by lia.
    by rewrite Z.mod_add, Z.mod_mod.
Qed.

Lemma lor_lt_pow2 x y n :
  0 <= n -> 0 <= x < 2 ^ n -> 0 <= y < 2 ^ n -> 0 <= Z.lor x y < 2 ^ n.
Proof.
  intros Hn Hx Hy.
  assert (E : Z.lor x y = Z.lor x y mod 2 ^ n).
  { rewrite <- Z.land_ones, Z.land_lor_distr_l, !Z.land_ones by lia.
    by rewrite !Z.mod_small. }
  rewrite E. apply Z.mod_pos_bound. lia.
Qed.

(** The address of query [n] under the base [ip]. *)
Lemma query_ip_lor ip n :
  0 <= ip < 2 ^ 32 -> 0 <= n < 2 ^ 32 -> query_ip ip n = Z.lor ip n.
Proof.
  intros Hip Hn. unfold query_ip. apply uint32_id. by apply lor_lt_pow2.
Qed.

Lemma query_ip_range ip n : 0 <= query_ip ip n < 2 ^ 32.
Proof. unfold query_ip, uint32. by apply Z.mod_pos_bound. Qed.

Lemma octet_range x : 0 <= Z.land x 255 < 2 ^ 8.
Proof.
  change 255 with (Z.ones 8). rewrite Z.land_ones by lia.
  by apply Z.mod_pos_bound.
Qed.

(** An octet back in its place: the bits [s .. s+7] of the address. *)
Lemma octet_in_place_bits ip s n :
  0 <= s -> 0 <= n ->
  Z.testbit (Z.land (Z.shiftr ip s) 255 * 2 ^ s) n
  = Z.testbit ip n && (s <=? n) && (n <? s + 8).
Proof.
  intros Hs Hn. rewrite <- Z.shiftl_mul_pow2 by lia.
  destruct (Z.leb_spec s n) as [Hle|Hlt].
  - rewrite Z.shiftl_spec, Z.land_spec, Z.shiftr_spec by lia.
    replace (n - s + s) with n by lia.
    change 255 with (Z.ones 8).
    destruct (Z.ltb_spec n (s + 8)).
    + rewrite Z.ones_spec_low by lia. by rewrite !andb_true_r.
    + rewrite Z.ones_spec_high by lia. by rewrite !andb_false_r.
  - rewrite Z.shiftl_spec_low by lia. by rewrite andb_false_r.
Qed.

(** What [snprintf] is given on the sending side, [sscanf] gives back on
    the receiving side: the four octets rebuild the address. *)
Lemma ip_of_temp_label_of_ip ip :
  0 <= ip < 2 ^ 32 -> ip_of_temp (label_of_ip ip) = Some ip.
Proof.
  intros Hip. unfold label_of_ip, ip_of_temp.
  assert (Hshl : forall x s, 0 <= s <= 24 ->
            int_shl (uint8 (Z.land x 255)) s = Some (to_int (Z.land x 255 * 2 ^ s))).
  { intros x s Hs. pose proof (octet_range x) as Ho.
    unfold uint8. rewrite Z.mod_small by done. unfold int_shl.
    assert (Z.land x 255 * 2 ^ s < 2 ^ 32).
    { assert (2 ^ s <= 2 ^ 24) by (apply Z.pow_le_mono_r; lia).
      change (2 ^ 32) with (2 ^ 8 * 2 ^ 24). nia. }
    repeat match goal with
    | |- context [?a <=? ?b] => destruct (Z.leb_spec a b); [|lia]
    | |- context [?a <? ?b] => destruct (Z.ltb_spec a b); [|lia]
    end. done. }
  rewrite !Hshl by lia. simpl.
  f_equal. rewrite !uint32_lor, !uint32_to_int.
  unfold uint8. rewrite (Z.mod_small (Z.land ip 255)) by apply octet_range.
  rewrite <- !uint32_lor, uint32_land.
  apply Z.bits_inj'. intros n Hn.
  rewrite Z.land_spec, !Z.lor_spec.
  rewrite !octet_in_place_bits by lia.
  replace (Z.land ip 255) with (Z.land (Z.shiftr ip 0) 255 * 2 ^ 0)
    by (rewrite Z.shiftr_0_r; simpl; lia).
  rewrite octet_in_place_bits by lia.
  destruct (Z.ltb_spec n 32) as [Hlt|Hge].
  - rewrite Z.ones_spec_low, andb_true_r by lia.
    destruct (Z.testbit ip n); [|done]. simpl.
    repeat match goal with
    | |- context [?a <=? ?b] => destruct (Z.leb_spec a b)
    | |- context [?a <? ?b] => destruct (Z.ltb_spec a b)
    end; simpl; try done; lia.
  - rewrite Z.ones_spec_high, andb_false_r by lia.
    symmetry. apply Z.bits_above_log2; [lia|].
    destruct (Z.eq_dec ip 0) as [->|]; [simpl; lia|].
    apply Z.lt_le_trans with 32; [|lia]. apply Z.log2_lt_pow2; lia.
Qed.

Lemma host_mask_u64_ones netmask :
  0 <= netmask <= 32 -> host_mask_u64 netmask = Some (Z.ones (32 - netmask)).
Proof.
  intros H. unfold host_mask_u64, int_sub, in_int, INT_MIN, INT_MAX.
  destruct (Z.leb_spec (- 2 ^ 31) (32 - netmask)); [|lia].
  destruct (Z.leb_spec (32 - netmask) (2 ^ 31 - 1)); [|lia].
  simpl. unfold u64_shl.
  destruct (Z.leb_spec 0 (32 - netmask)); [|lia].
  destruct (Z.ltb_spec (32 - netmask) 64); [|lia].
  simpl. f_equal. unfold uint64. rewrite Z.ones_equiv.
  assert (0 < 2 ^ (32 - netmask) <= 2 ^ 32).
  { split; [apply Z.pow_pos_nonneg; lia|apply Z.pow_le_mono_r; lia]. }
  rewrite (Z.mod_small (1 * _)) by lia.
  rewrite Z.mod_small by lia. lia.
Qed.

Lemma host_mask_int_ones netmask :
  2 <= netmask <= 32 -> host_mask_int netmask = Some (Z.ones (32 - netmask)).
Proof.
  intros H. unfold host_mask_int, int_sub, in_int, INT_MIN, INT_MAX.
  destruct (Z.leb_spec (- 2 ^ 31) (32 - netmask)); [|lia].
  destruct (Z.leb_spec (32 - netmask) (2 ^ 31 - 1)); [|lia].
  simpl. unfold int_shl.
  assert (Hp : 0 < 2 ^ (32 - netmask) <= 2 ^ 30).
  { split; [apply Z.pow_pos_nonneg; lia|apply Z.pow_le_mono_r; lia]. }
  destruct (Z.leb_spec 0 (32 - netmask)); [|lia].
  destruct (Z.ltb_spec (32 - netmask) 32); [|lia].
  destruct (Z.ltb_spec (1 * 2 ^ (32 - netmask)) (2 ^ 32)); [|lia].
  simpl. unfold to_int, INT_MAX.
  rewrite uint32_id by lia.
  destruct (Z.leb_spec (1 * 2 ^ (32 - netmask)) (2 ^ 31 - 1)); [|lia].
  destruct (Z.leb_spec (- 2 ^ 31) (1 * 2 ^ (32 - netmask) - 1)); [|lia].
  destruct (Z.leb_spec (1 * 2 ^ (32 - netmask) - 1) (2 ^ 31 - 1)); [|lia].
  simpl. f_equal. rewrite Z.ones_equiv. lia.
Qed.

(** Outside that range the mask of line 205 has no defined value. *)
Lemma host_mask_int_undefined netmask :
  netmask < 2 \/ 32 < netmask -> host_mask_int netmask = None.
Proof.
  intros H. unfold host_mask_int, int_sub.
  destruct (in_int (32 - netmask)) eqn:Hin; [|done]. simpl.
  unfold int_shl.
  destruct (Z.leb_spec 0 (32 - netmask)); [|done].
  destruct (Z.ltb_spec (32 - netmask) 32); [|by rewrite andb_false_r].
  assert (netmask = 1) as -> by lia. reflexivity.
Qed.

Lemma ones_range k : 0 <= k <= 32 -> 0 <= Z.ones k < 2 ^ 32.
Proof.
  intros H. rewrite Z.ones_equiv.
  assert (0 < 2 ^ k <= 2 ^ 32).
  { split; [apply Z.pow_pos_nonneg; lia|apply Z.pow_le_mono_r; lia]. }
  lia.
Qed.

(** C3, as the code has it: when the base address has no bit set among
    its low [32 - netmask] bits, an index below [num_req <= 2^(32-netmask)]
    is found again from the address made of it, both through the four
    octets of the label and through the host mask. *)
Theorem index_address_inverse ip netmask num_req i :
  0 <= ip < 2 ^ 32 -> 0 <= netmask <= 32 ->
  Z.land ip (2 ^ (32 - netmask) - 1) = 0 ->
  num_req <= 2 ^ (32 - netmask) -> 0 <= i < num_req ->
  ip_of_temp (label_of_ip (query_ip ip i)) = Some (query_ip ip i) /\
  index_of_ip netmask (query_ip ip i) = Some i.
Proof.
  intros Hip Hmask Hbase Hreq Hi.
  split; [apply ip_of_temp_label_of_ip, query_ip_range|].
  assert (Hp : 2 ^ (32 - netmask) <= 2 ^ 32) by (apply Z.pow_le_mono_r; lia).
  unfold index_of_ip. rewrite host_mask_u64_ones by done. simpl. f_equal.
  rewrite query_ip_lor by lia.
  rewrite Z.land_lor_distr_l.
  replace (Z.ones (32 - netmask)) with (2 ^ (32 - netmask) - 1)
    by (rewrite Z.ones_equiv; lia).
  rewrite Hbase, Z.lor_0_l.
  replace (2 ^ (32 - netmask) - 1) with (Z.ones (32 - netmask))
    by (rewrite Z.ones_equiv; lia).
  rewrite Z.land_ones by lia. apply Z.mod_small. lia.
Qed.

Lemma index_address_inverse_witness :
  index_of_ip 24 (query_ip 3221225984 2) = Some 2.
Proof.
  exact (proj2 (index_address_inverse 3221225984 24 4 2
                  ltac:(lia) ltac:(lia) ltac:(reflexivity) ltac:(lia)
                  ltac:(lia))).
Defined.

(** C3 fails as stated: under the base address 192.0.2.1 with a 24-bit
    prefix and four requests, index 0 gives the address 192.0.2.1, which
    decodes to index 1. *)
Lemma index_address_counterexample :
  4 <= 2 ^ (32 - 24) /\ 0 <= 0 < 4 /\
  query_ip 3221225985 0 = 3221225985 /\
  index_of_ip 24 (query_ip 3221225985 0) = Some 1 /\
  index_of_ip 24 (query_ip 3221225985 0) <> Some 0.
Proof. repeat split; try done; vm_compute; congruence. Qed.

(** ** The answer correlator *)

Lemma ip_of_temp_defined temp :
  exists ip, ip_of_temp temp = Some ip /\ 0 <= ip < 2 ^ 32.
Proof.
  destruct temp as [[[t0 t1] t2] t3]. unfold ip_of_temp.
  assert (Hshl : forall x s, 0 <= s <= 24 ->
            int_shl (uint8 x) s = Some (to_int (uint8 x * 2 ^ s))).
  { intros x s Hs. unfold int_shl.
    assert (0 <= uint8 x < 2 ^ 8) by (apply Z.mod_pos_bound; lia).
    assert (0 < 2 ^ s <= 2 ^ 24).
    { split; [apply Z.pow_pos_nonneg; lia|apply Z.pow_le_mono_r; lia]. }
    assert (uint8 x * 2 ^ s < 2 ^ 32).
    { change (2 ^ 32) with (2 ^ 8 * 2 ^ 24). nia. }
    repeat match goal with
    | |- context [?a <=? ?b] => destruct (Z.leb_spec a b); [|lia]
    | |- context [?a <? ?b] => destruct (Z.ltb_spec a b); [|lia]
    end. done. }
  rewrite !Hshl by lia. simpl. eexists. split; [reflexivity|].
  apply Z.mod_pos_bound. lia.
Qed.

(** The two masks agree wherever the one of line 205 is defined. *)
Lemma host_masks_agree netmask m :
  host_mask_int netmask = Some m ->
  2 <= netmask <= 32 /\ m = Z.ones (32 - netmask) /\ uint32 m = m /\
  host_mask_u64 netmask = Some m.
Proof.
  intros Hm.
  destruct (Z.lt_ge_cases netmask 2) as [Hlt|Hge].
  { rewrite host_mask_int_undefined in Hm by lia. done. }
  destruct (Z.lt_ge_cases 32 netmask) as [Hgt|Hle].
  { rewrite host_mask_int_undefined in Hm by lia. done. }
  rewrite host_mask_int_ones in Hm by lia. injection Hm as <-.
  split; [lia|]. split; [done|]. split.
  - apply uint32_id, ones_range. lia.
  - apply host_mask_u64_ones. lia.
Qed.

Lemma copy_label_Some label label' :
  copy_label label = Some label' ->
  label' = label /\ (String.length label < 64)%nat.
Proof.
  unfold copy_label. destruct (Nat.ltb_spec (String.length label) 64); [|done].
  by intros [= <-].
Qed.

Lemma copy_label_short label :
  (String.length label < 64)%nat -> copy_label label = Some label.
Proof.
  intros H. unfold copy_label.
  destruct (Nat.ltb_spec (String.length label) 64); [done|lia].
Qed.


Section CorrelatorProperties.

Variable sscanf_addr : string -> option octets.

(** Every way out of [correlate] that is not an exception. *)
Lemma correlate_Ret_mask answer time_received t t' :
  correlate sscanf_addr answer time_received t = Ret tt t' ->
  exists temp ip query,
    1 <= qdcount answer /\
    (String.length (label0 answer) < 64)%nat /\
    sscanf_addr (label0 answer) = Some temp /\
    ip_of_temp temp = Some ip /\
    2 <= netmask_ t <= 32 /\
    0 <= Z.land ip (Z.ones (32 - netmask_ t)) < num_req_ t /\
    tests_ t !! Z.to_nat (Z.land ip (Z.ones (32 - netmask_ t))) = Some query /\
    t' = set_tests
           (<[Z.to_nat (Z.land ip (Z.ones (32 - netmask_ t))) :=
               answer_record answer time_received query]> (tests_ t)) t.
Proof.
  unfold correlate, bind, get, throw, defined.
  destruct (Z.ltb_spec (qdcount answer) 1) as [|Hqd]; [done|].
  destruct (copy_label (label0 answer)) as [label|] eqn:Hcopy; [|done].
  apply copy_label_Some in Hcopy as [-> Hshort].
  destruct (sscanf_addr (label0 answer)) as [temp|]; [|done].
  destruct (ip_of_temp_defined temp) as (ip & Hip & Hrange). rewrite Hip.
  destruct (host_mask_int (netmask_ t)) as [m|] eqn:Hm; [|done].
  destruct (host_masks_agree _ _ Hm) as (Hnm & -> & Hu & Hm64).
  rewrite Hu.
  destruct (Z.leb_spec (num_req_ t) (Z.land ip (Z.ones (32 - netmask_ t))))
    as [|Hlt]; [done|].
  unfold index_of_ip. rewrite Hm64. simpl.
  unfold tests_at, bind, get, defined.
  assert (0 <= Z.land ip (Z.ones (32 - netmask_ t)))
    by (apply Z.land_nonneg; lia).
  destruct (0 <=? Z.land ip (Z.ones (32 - netmask_ t))); [|done].
  destruct (tests_ t !! _) as [query|] eqn:Hq; [|done].
  unfold tests_store, modify. intros [= <-].
  exists temp, ip, query. repeat split; try done; lia.
Qed.

Lemma correlate_Ret answer time_received t t' :
  correlate sscanf_addr answer time_received t = Ret tt t' ->
  exists temp ip i query,
    1 <= qdcount answer /\
    sscanf_addr (label0 answer) = Some temp /\
    ip_of_temp temp = Some ip /\
    index_of_ip (netmask_ t) ip = Some i /\
    0 <= i < num_req_ t /\
    tests_ t !! Z.to_nat i = Some query /\
    t' = set_tests
           (<[Z.to_nat i := answer_record answer time_received query]> (tests_ t)) t.
Proof.
  intros H. apply correlate_Ret_mask in H
    as (temp & ip & query & Hqd & _ & Hscan & Hip & Hnm & Hi & Hq & ->).
  exists temp, ip, (Z.land ip (Z.ones (32 - netmask_ t))), query.
  repeat split; try done; try lia.
  unfold index_of_ip. by rewrite host_mask_u64_ones by lia.
Qed.

(** [correlate] itself never reports the sender. *)
Lemma correlate_not_UnexpectedSender answer time_received t s t' :
  correlate sscanf_addr answer time_received t <> Throw (UnexpectedSender s) t'.
Proof.
  unfold correlate, bind, get, throw, defined.
  destruct (qdcount answer <? 1); [done|].
  destruct (copy_label (label0 answer)) as [label|]; [|done].
  destruct (sscanf_addr label) as [temp|]; [|done].
  destruct (ip_of_temp temp); [|done].
  destruct (host_mask_int (netmask_ t)); [|done].
  destruct (_ <=? _); [done|].
  destruct (index_of_ip _ _) as [i|]; [|done].
  unfold tests_at, bind, get, defined.
  destruct (0 <=? i); [|done].
  destruct (tests_ t !! _); done.
Qed.

Lemma sender_is_server_spec sender server :
  sender_is_server sender server = true <->
  sin6_addr sender = sin6_addr server /\ sin6_port sender = sin6_port server.
Proof.
  unfold sender_is_server.
  rewrite andb_true_iff, bool_decide_eq_true, Z.eqb_eq. done.
Qed.

(** What the loop body does with a datagram of at least one octet from the
    server. *)
Lemma receive_from_server recvlen errno sender answer time_received t :
  0 < recvlen -> sender_is_server sender (server_ t) = true ->
  receive sscanf_addr (Datagram recvlen errno sender answer time_received) t
  = correlate sscanf_addr answer time_received t.
Proof.
  intros Hlen Hsender. simpl.
  destruct (Z.ltb_spec 0 recvlen); [|lia].
  unfold bind, get. by rewrite Hsender.
Qed.

(** Every normal way out of the loop body on a datagram. *)
Lemma receive_Datagram_Ret recvlen errno sender answer time_received t t' :
  receive sscanf_addr (Datagram recvlen errno sender answer time_received) t
  = Ret tt t' ->
  (recvlen <= 0 /\ errno = true /\ t' = t) \/
  (0 < recvlen /\ sender_is_server sender (server_ t) = true /\
   correlate sscanf_addr answer time_received t = Ret tt t').
Proof.
  simpl. destruct (Z.ltb_spec 0 recvlen).
  - unfold bind, get, throw.
    destruct (sender_is_server sender (server_ t)); simpl; [|done].
    intros Hc. right. by repeat split.
  - unfold recvfrom_failed. destruct errno; [|done].
    intros [= <-]. left. by repeat split.
Qed.

(** The conditions under which an answer is taken, and what is then
    written. *)
Lemma receive_accepts recvlen errno sender answer time_received t temp ip
    query :
  0 < recvlen ->
  sender_is_server sender (server_ t) = true ->
  1 <= qdcount answer ->
  (String.length (label0 answer) < 64)%nat ->
  sscanf_addr (label0 answer) = Some temp ->
  ip_of_temp temp = Some ip ->
  2 <= netmask_ t <= 32 ->
  Z.land ip (Z.ones (32 - netmask_ t)) < num_req_ t ->
  tests_ t !! Z.to_nat (Z.land ip (Z.ones (32 - netmask_ t))) = Some query ->
  receive sscanf_addr (Datagram recvlen errno sender answer time_received) t
  = Ret tt (set_tests
              (<[Z.to_nat (Z.land ip (Z.ones (32 - netmask_ t))) :=
                  answer_record answer time_received query]> (tests_ t)) t).
Proof.
  intros Hlen Hsender Hqd Hshort Hscan Hip Hnm Hlt Hq.
  rewrite receive_from_server by done.
  unfold correlate, bind, get, throw, defined.
  destruct (Z.ltb_spec (qdcount answer) 1); [lia|].
  rewrite copy_label_short by done.
  rewrite Hscan, Hip, host_mask_int_ones by done.
  rewrite uint32_id by (apply ones_range; lia).
  destruct (Z.leb_spec (num_req_ t) (Z.land ip (Z.ones (32 - netmask_ t))));
    [lia|].
  unfold index_of_ip. rewrite host_mask_u64_ones by lia. simpl.
  unfold tests_at, bind, get, defined.
  destruct (ip_of_temp_defined temp) as (ip' & Hip' & Hrange).
  assert (ip' = ip) as -> by congruence.
  assert (0 <= Z.land ip (Z.ones (32 - netmask_ t)))
    by (apply Z.land_nonneg; lia).
  destruct (Z.leb_spec 0 (Z.land ip (Z.ones (32 - netmask_ t)))); [|lia].
  rewrite Hq. done.
Qed.


(** C6, as the code has it: a datagram of at least one octet whose sender
    address or port is not the server's makes the loop body throw, whatever
    the datagram holds, and leaves the tester as it was; a datagram (of any
    length) from the server's address and port never makes it throw that
    exception. *)
Theorem unexpected_sender_aborts recvlen errno sender answer time_received t :
  (0 < recvlen ->
   sin6_addr sender <> sin6_addr (server_ t)
   \/ sin6_port sender <> sin6_port (server_ t) ->
   receive sscanf_addr (Datagram recvlen errno sender answer time_received) t
     = Throw (UnexpectedSender sender) t)
  /\
  (sin6_addr sender = sin6_addr (server_ t)
   /\ sin6_port sender = sin6_port (server_ t) ->
   forall s t',
     receive sscanf_addr (Datagram recvlen errno sender answer time_received) t
       <> Throw (UnexpectedSender s) t').
Proof.
  split.
  - intros Hlen Hne. simpl. destruct (Z.ltb_spec 0 recvlen); [|lia].
    unfold bind, get, throw.
    destruct (sender_is_server sender (server_ t)) eqn:E; [|done].
    apply sender_is_server_spec in E. tauto.
  - intros Heq s t'. simpl. destruct (0 <? recvlen).
    + unfold bind, get.
      apply sender_is_server_spec in Heq. rewrite Heq. simpl.
      apply correlate_not_UnexpectedSender.
    + unfold recvfrom_failed, ret, throw. by destruct errno.
Qed.

(** Where the mask of line 205 is defined, the range check is exact. *)
Lemma index_check_exact recvlen errno sender answer time_received t temp :
  0 < recvlen ->
  2 <= netmask_ t <= 32 ->
  sender_is_server sender (server_ t) = true ->
  1 <= qdcount answer ->
  (String.length (label0 answer) < 64)%nat ->
  sscanf_addr (label0 answer) = Some temp ->
  exists ip i,
    ip_of_temp temp = Some ip /\ index_of_ip (netmask_ t) ip = Some i /\
    (receive sscanf_addr (Datagram recvlen errno sender answer time_received) t
       = Throw IndexOutOfRange t <-> num_req_ t <= i).
Proof.
  intros Hlen Hnm Hsender Hqd Hshort Hscan.
  destruct (ip_of_temp_defined temp) as (ip & Hip & Hrange).
  exists ip, (Z.land ip (Z.ones (32 - netmask_ t))).
  split; [done|]. split.
  { unfold index_of_ip. by rewrite host_mask_u64_ones by lia. }
  rewrite receive_from_server by done.
  unfold correlate, bind, get, throw, defined.
  destruct (Z.ltb_spec (qdcount answer) 1); [lia|].
  rewrite copy_label_short by done.
  rewrite Hscan, Hip, host_mask_int_ones by done.
  rewrite uint32_id by (apply ones_range; lia).
  destruct (Z.leb_spec (num_req_ t) (Z.land ip (Z.ones (32 - netmask_ t))))
    as [Hle|Hlt]; [done|].
  split; [|lia]. unfold index_of_ip.
  rewrite host_mask_u64_ones by lia. simpl.
  unfold tests_at, bind, get, defined.
  destruct (0 <=? _); [|done].
  destruct (tests_ t !! _); done.
Qed.

End CorrelatorProperties.

(** ** Invariants of the records *)

Section Invariants.

Variable sscanf_addr : string -> option octets.

Lemma test_body_Ret now t t' :
  test_body now t = Ret tt t' ->
  exists i query query',
    tests_ t !! i = Some query /\ touched query query' /\
    tests_ t' = <[i := query']> (tests_ t).
Proof.
  unfold test_body, tests_at, bind, get, defined, modify, sendto, tests_store.
  destruct (0 <=? num_sent_ t); [|done].
  destruct (tests_ t !! Z.to_nat (num_sent_ t)) as [query|] eqn:Hq; [|done].
  simpl. intros [= <-].
  exists (Z.to_nat (num_sent_ t)), query. eexists.
  split; [done|]. split; [apply (touched_sent query now)|done].
Qed.

Lemma receive_Ret ev t t' :
  receive sscanf_addr ev t = Ret tt t' ->
  tests_ t' = tests_ t \/
  exists i query query',
    tests_ t !! i = Some query /\ touched query query' /\
    tests_ t' = <[i := query']> (tests_ t).
Proof.
  destruct ev as [recvlen errno sender answer time_received| |].
  - intros H.
    apply receive_Datagram_Ret in H as [(_ & _ & ->)|(_ & _ & H)]; [by left|].
    right.
    apply correlate_Ret in H as (_ & _ & i & query & _ & _ & _ & _ & _ & Hq & ->).
    exists (Z.to_nat i), query. eexists.
    split; [done|]. split; [apply (touched_answered query answer time_received)|done].
  - simpl. intros [= <-]. by left.
  - done.
Qed.

(** A property of single records that creation establishes and both kinds
    of change keep holds of every record of every reachable tester. *)
Lemma records_invariant (P : DnsQuery -> Prop) t0 t :
  Forall P (tests_ t0) ->
  (forall query query', P query -> touched query query' -> P query') ->
  reachable sscanf_addr t0 t -> Forall P (tests_ t).
Proof.
  intros H0 Hkeep Hreach.
  induction Hreach as [|t t' _ IH Hstep]; [done|].
  assert (Hcases : tests_ t' = tests_ t \/
    exists i query query', tests_ t !! i = Some query /\ touched query query' /\
      tests_ t' = <[i := query']> (tests_ t)).
  { destruct Hstep as [now t' H|ev t' H].
    - right. by apply test_body_Ret in H.
    - by apply receive_Ret in H. }
  destruct Hcases as [->|(i & query & query' & Hq & Htouch & ->)]; [done|].
  apply Forall_insert; [done|].
  eapply Hkeep; [|done]. by eapply Forall_lookup_1.
Qed.

Lemma DnsTester_new_records (P : DnsQuery -> Prop) htons server_addr port ip
    netmask num_req num_burst burst_delay :
  P DnsQuery_new ->
  Forall P (tests_ (DnsTester_new htons server_addr port ip netmask num_req
                      num_burst burst_delay)).
Proof. intros H. simpl. by apply Forall_replicate. Qed.

(** C5: in every tester reachable from the constructor by sends and
    receives, every record that is answered is received. Creation clears
    both flags, a send changes neither, and the correlator sets
    [received_] whenever it writes [answered_]. *)
Theorem answered_implies_received htons server_addr port ip netmask num_req
    num_burst burst_delay t :
  reachable sscanf_addr
    (DnsTester_new htons server_addr port ip netmask num_req num_burst
       burst_delay) t ->
  Forall (fun query => answered_ query = true -> received_ query = true)
    (tests_ t).
Proof.
  apply records_invariant.
  - by apply DnsTester_new_records.
  - intros query query' H [now|answer time_received]; simpl; auto.
Qed.

(** A record not yet received holds no round-trip time. *)
Lemma unreceived_rtt_indeterminate htons server_addr port ip netmask num_req
    num_burst burst_delay t :
  reachable sscanf_addr
    (DnsTester_new htons server_addr port ip netmask num_req num_burst
       burst_delay) t ->
  Forall (fun query => received_ query = false -> rtt_ query = None)
    (tests_ t).
Proof.
  apply records_invariant.
  - by apply DnsTester_new_records.
  - intros query query' H [now|answer time_received]; simpl; auto. done.
Qed.

End Invariants.

(** C7, where the code parts from it: with no prefix at all
    ([netmask_ = 0]) the check of line 205 shifts an [int] by 32 bits, which
    has no defined value, so the answer naming 0.0.0.5 is not turned down
    with [IndexOutOfRange] although it decodes (with the 64-bit mask of
    line 209) to index 5 and there is one request only. *)
Theorem index_check_undefined_without_prefix :
  netmask_ Scenario.whole_space = 0 /\
  num_req_ Scenario.whole_space = 1 /\
  Scenario.sscanf_addr "0-0-0-5" = Some (0, 0, 0, 5) /\
  ip_of_temp (0, 0, 0, 5) = Some 5 /\
  index_of_ip 0 5 = Some 5 /\
  host_mask_int 0 = None /\
  Scenario.stray_answer Scenario.whole_space = Undefined.
Proof. repeat split; vm_compute; reflexivity. Qed.

(** ** The reporters *)

Lemma true_count_cons flag query tests :
  true_count flag (query :: tests)
  = (if flag query then 1 else 0) + true_count flag tests.
Proof. unfold true_count. simpl. destruct (flag query); simpl; lia. Qed.

Lemma true_count_nonneg flag tests : 0 <= true_count flag tests.
Proof. unfold true_count. lia. Qed.

Lemma uint16_succ x : uint16 (uint16 x + 1) = uint16 (x + 1).
Proof. unfold uint16. by rewrite Zplus_mod_idemp_l. Qed.

Lemma count_loop_from tests : forall r a,
  foldl (fun '(num_received, num_answered) query =>
           (if received_ query then uint16 (num_received + 1) else num_received,
            if answered_ query then uint16 (num_answered + 1) else num_answered))
        (uint16 r, uint16 a) tests
  = (uint16 (r + true_count received_ tests),
     uint16 (a + true_count answered_ tests)).
Proof.
  induction tests as [|query tests IH]; intros r a.
  - unfold true_count. simpl. by rewrite !Z.add_0_r.
  - rewrite !true_count_cons. simpl foldl.
    destruct (received_ query), (answered_ query);
      rewrite ?uint16_succ, IH; do 2 f_equal; lia.
Qed.

Lemma count_loop_counts tests :
  count_loop tests
  = (true_count received_ tests mod 2 ^ 16,
     true_count answered_ tests mod 2 ^ 16).
Proof. exact (count_loop_from tests 0 0). Qed.

Lemma display_Ret pow t s t' :
  display pow t = Ret s t' ->
  t' = t /\
  sent s = Z.of_nat (length (tests_ t)) /\
  (num_received s, num_answered s) = count_loop (tests_ t) /\
  received_percent s
    = Double.mul (Double.div (Double.of_Z (num_received s)) (Double.of_Z (sent s)))
                 (Double.of_Z 100) /\
  answered_percent s
    = Double.div (Double.of_Z (num_answered s)) (Double.of_Z (sent s)).
Proof.
  unfold display, bind, get.
  destruct (count_loop (tests_ t)) as [nr na].
  assert (Ha : forall tests avg a t1, average_loop nr tests avg t = Ret a t1 -> t1 = t).
  { induction tests as [|q tests IH]; intros avg a t1; simpl.
    - by intros [= _ <-].
    - destruct (received_ q); [|apply IH].
      unfold bind, rtt_count, defined. destruct (rtt_ q); [apply IH|done]. }
  destruct (average_loop nr (tests_ t) Double.zero t) as [avg t1| |] eqn:E1;
    [|done|done].
  apply Ha in E1 as ->.
  assert (Hd : forall tests sd d t1,
            deviation_loop pow avg tests sd t = Ret d t1 -> t1 = t).
  { induction tests as [|q tests IH]; intros sd d t1; simpl.
    - by intros [= _ <-].
    - destruct (received_ q); [|apply IH].
      unfold bind, rtt_count, defined. destruct (rtt_ q); [apply IH|done]. }
  destruct (deviation_loop pow avg (tests_ t) Double.zero t) as [sd t1| |] eqn:E2;
    [|done|done].
  apply Hd in E2 as ->.
  unfold ret. intros [= <- <-]. simpl. done.
Qed.

(** C10: the counts [display] prints are the numbers of received and of
    answered records reduced modulo 2^16; from 65536 received (answered)
    records on, the printed count is not the number of such records. *)
Theorem display_counts_modulo pow t s t' :
  display pow t = Ret s t' ->
  num_received s = true_count received_ (tests_ t) mod 2 ^ 16 /\
  num_answered s = true_count answered_ (tests_ t) mod 2 ^ 16 /\
  (65535 < true_count received_ (tests_ t) ->
   num_received s <> true_count received_ (tests_ t)) /\
  (65535 < true_count answered_ (tests_ t) ->
   num_answered s <> true_count answered_ (tests_ t)).
Proof.
  intros H. apply display_Ret in H as (_ & _ & Hc & _).
  rewrite count_loop_counts in Hc. injection Hc as -> ->.
  pose proof (Z.mod_pos_bound (true_count received_ (tests_ t)) (2 ^ 16)).
  pose proof (Z.mod_pos_bound (true_count answered_ (tests_ t)) (2 ^ 16)).
  repeat split; lia.
Qed.

Lemma display_counts_modulo_witness :
  exists s,
    display Scenario.pow Scenario.answered_twice = Ret s Scenario.answered_twice /\
    num_received s
    = true_count received_ (tests_ Scenario.answered_twice) mod 2 ^ 16.
Proof.
  eexists. split; [vm_compute; reflexivity|].
  refine (proj1 (display_counts_modulo Scenario.pow Scenario.answered_twice _
                   Scenario.answered_twice _)).
  vm_compute. reflexivity.
Defined.

(** 65536 received records are counted as none. *)
Lemma count_loop_wraps :
  count_loop (replicate (Z.to_nat 65536)
                {| time_sent_ := 0; received_ := true; answered_ := true;
                   rtt_ := Some 1 |}) = (0, 0).
Proof. vm_compute. reflexivity. Qed.

Lemma loops_nothing_received pow num_received average tests t :
  Forall (fun query => received_ query = false) tests ->
  forall acc, average_loop num_received tests acc t = Ret acc t /\
              deviation_loop pow average tests acc t = Ret acc t.
Proof.
  induction 1 as [|query tests Hq _ IH]; intros acc; simpl; [done|].
  rewrite Hq. apply IH.
Qed.

(** With no record received the average is zero and the standard deviation
    is the square root of 0/0. *)
Lemma display_nothing_received pow t :
  Forall (fun query => received_ query = false) (tests_ t) ->
  exists s, display pow t = Ret s t /\ num_received s = 0 /\
    average_ms s = Double.zero /\ standard_deviation_ms s = S754_nan.
Proof.
  intros Hnone. unfold display, bind, get.
  assert (Hz : true_count received_ (tests_ t) = 0).
  { unfold true_count. induction Hnone as [|q l Hq _ IH]; [done|].
    simpl. by rewrite Hq. }
  rewrite count_loop_counts, Hz. change (0 mod 2 ^ 16) with 0.
  destruct (loops_nothing_received pow 0 Double.zero (tests_ t) t Hnone Double.zero)
    as [-> ->].
  eexists. split; [reflexivity|]. simpl. repeat split; vm_compute; reflexivity.
Qed.

(** C2, where the code parts from it: after a run in which every query
    went out and no answer came back, [display] returns, the average it
    prints is zero, and the standard deviation it prints is not zero but
    NaN, the square root of zero divided by zero. *)
Theorem display_no_answers_nan pow :
  exists s t,
    (Scenario.all_sent ;;; display pow) Scenario.tester = Ret s t /\
    num_received s = 0 /\
    average_ms s = Double.zero /\
    standard_deviation_ms s = S754_nan /\
    standard_deviation_ms s <> Double.zero.
Proof.
  eexists. eexists. split; [vm_compute; reflexivity|].
  simpl. repeat split; try (vm_compute; reflexivity). vm_compute. discriminate.
Qed.

Lemma loops_defined pow num_received average tests t :
  Forall (fun query => received_ query = true -> is_Some (rtt_ query)) tests ->
  forall acc,
    (exists a, average_loop num_received tests acc t = Ret a t) /\
    (exists d, deviation_loop pow average tests acc t = Ret d t).
Proof.
  induction 1 as [|query tests Hq _ IH]; intros acc; simpl.
  - split; by eexists.
  - destruct (received_ query); [|apply IH].
    destruct (Hq eq_refl) as [r Hr].
    unfold bind, rtt_count, defined. rewrite Hr. split; apply IH.
Qed.

(** [display] returns when every received record holds a round-trip time. *)
Lemma display_defined pow t :
  Forall (fun query => received_ query = true -> is_Some (rtt_ query)) (tests_ t) ->
  exists s, display pow t = Ret s t.
Proof.
  intros Hall. unfold display, bind, get.
  destruct (count_loop (tests_ t)) as [nr na].
  destruct (proj1 (loops_defined pow nr Double.zero _ t Hall Double.zero))
    as [avg ->].
  destruct (proj2 (loops_defined pow nr avg _ t Hall Double.zero)) as [sd ->].
  by eexists.
Qed.

(** C9, where the code parts from it: with two of four queries answered
    the percentage printed with the received count is 50, the percentage
    printed with the valid-answer count is 0.5: the quotient is not
    multiplied by 100 on line 260 as it is on line 259. *)
Theorem display_valid_answers_ratio pow :
  Scenario.two_answers Scenario.tester = Ret tt Scenario.answered_twice /\
  exists s,
    display pow Scenario.answered_twice = Ret s Scenario.answered_twice /\
    sent s = 4 /\ num_received s = 2 /\ num_answered s = 2 /\
    received_percent s = Double.of_Z 50 /\
    answered_percent s = Double.div (Double.of_Z 1) (Double.of_Z 2) /\
    answered_percent s <> Double.of_Z 50.
Proof.
  split; [vm_compute; reflexivity|].
  destruct (display_defined pow Scenario.answered_twice) as [s Hs].
  { repeat (constructor; [simpl; intros ?; (discriminate || by eexists)|]).
    constructor. }
  exists s. split; [exact Hs|].
  apply display_Ret in Hs as (_ & Hsent & Hc & Hr & Ha).
  assert (Hcount : count_loop (tests_ Scenario.answered_twice) = (2, 2))
    by (vm_compute; reflexivity).
  rewrite Hcount in Hc. injection Hc as Hnr Hna.
  change (Z.of_nat (length (tests_ Scenario.answered_twice))) with 4 in Hsent.
  rewrite Hr, Ha, Hnr, Hna, Hsent.
  repeat split; try (vm_compute; reflexivity).
  vm_compute. discriminate.
Qed.

Lemma write_loop_indeterminate ip tests : forall n t,
  Exists (fun query => rtt_ query = None) tests ->
  write_loop ip n tests t = Undefined.
Proof.
  induction tests as [|query tests IH]; intros n t H.
  - by apply Exists_nil in H.
  - simpl. unfold bind at 1. unfold defined at 1.
    destruct (int_add n 1) as [n'|]; [|done].
    unfold bind at 1. unfold rtt_count, defined.
    destruct (rtt_ query) as [r|] eqn:Hr; [|done].
    apply Exists_cons in H as [H|H]; [congruence|].
    unfold bind. by rewrite IH.
Qed.

(** Where a record was never received, [write] reads a round-trip time
    that was never given a value. *)
Lemma write_unreceived htons sscanf_addr server_addr port ip netmask num_req
    num_burst burst_delay t :
  reachable sscanf_addr
    (DnsTester_new htons server_addr port ip netmask num_req num_burst
       burst_delay) t ->
  Exists (fun query => received_ query = false) (tests_ t) ->
  write t = Undefined.
Proof.
  intros Hreach Hex. unfold write, bind, get.
  apply write_loop_indeterminate.
  pose proof (unreceived_rtt_indeterminate _ _ _ _ _ _ _ _ _ _ Hreach) as Hall.
  rewrite Forall_forall in Hall. apply Exists_exists in Hex as (q & Hin & Hq).
  apply Exists_exists. exists q. auto.
Qed.

(** C8, where the code parts from it: after a run in which every query
    went out and no answer came back, no record is received and none holds
    a round-trip time: the constructor gives [rtt_] no value and [write]
    prints [rtt_.count()] whether or not the record was received, so the
    report has no determinate rows, let alone rows with a zero in them. *)
Theorem write_unreceived_rtt :
  exists t,
    Scenario.all_sent Scenario.tester = Ret tt t /\
    Forall (fun query => received_ query = false /\ rtt_ query = None) (tests_ t) /\
    write t = Undefined.
Proof.
  eexists. split; [vm_compute; reflexivity|].
  split; [|vm_compute; reflexivity].
  repeat constructor.
Qed.

(** ** The statements at work on the run above *)



(** C6, against the claim as it stands: a datagram of no octets from
    another port than the server's never reaches the comparison of line
    182: it is passed over when [errno] reads [EWOULDBLOCK], and fails with
    the error of [recvfrom] otherwise. *)
Lemma empty_datagram_counterexample :
  sin6_port Scenario.stranger <> sin6_port (server_ Scenario.sent_all) /\
  receive Scenario.sscanf_addr
    (Datagram 0 true Scenario.stranger (Scenario.response "192-0-2-0") 10000000)
    Scenario.sent_all
  = Ret tt Scenario.sent_all /\
  receive Scenario.sscanf_addr
    (Datagram 0 false Scenario.stranger (Scenario.response "192-0-2-0") 10000000)
    Scenario.sent_all
  = Throw RecvError Scenario.sent_all.
Proof. repeat split; vm_compute; (reflexivity || discriminate). Qed.

Lemma answered_implies_received_witness :
  Forall (fun query => answered_ query = true -> received_ query = true)
    (tests_ Scenario.first_answered).
Proof.
  apply (answered_implies_received Scenario.sscanf_addr Scenario.htons
           Scenario.dut_addr 53 Scenario.base_ip 24 4 2 1000000).
  eapply reachable_step.
  - eapply reachable_step; [apply reachable_init|].
    apply (step_send _ _ 0). vm_compute. reflexivity.
  - apply (step_receive _ _ Scenario.first_answer). vm_compute. reflexivity.
Defined.

Lemma unexpected_sender_aborts_witness :
  receive Scenario.sscanf_addr
    (Scenario.datagram Scenario.stranger (Scenario.response "192-0-2-0")
       10000000)
    Scenario.sent_all
  = Throw (UnexpectedSender Scenario.stranger) Scenario.sent_all
  /\
  forall s t',
    receive Scenario.sscanf_addr Scenario.first_answer Scenario.sent_all
    <> Throw (UnexpectedSender s) t'.
Proof.
  split.
  - apply (proj1 (unexpected_sender_aborts Scenario.sscanf_addr 64 false
                    Scenario.stranger (Scenario.response "192-0-2-0") 10000000
                    Scenario.sent_all)).
    + reflexivity.
    + right. vm_compute. discriminate.
  - apply (proj2 (unexpected_sender_aborts Scenario.sscanf_addr 64 false
                    Scenario.dut (Scenario.response "192-0-2-0") 10000000
                    Scenario.sent_all)).
    split; reflexivity.
Defined.

(** * Further properties *)

(** ** The scheduler beyond whole bursts *)


Lemma test_body_past_the_end now t :
  Z.of_nat (length (tests_ t)) <= num_sent_ t -> test_body now t = Undefined.
Proof.
  intros H. unfold test_body, tests_at, bind, get, defined.
  destruct (0 <=? num_sent_ t); [|done].
  rewrite lookup_ge_None_2 by lia. done.
Qed.

Lemma test_loop_past_the_end clock n : forall i t,
  0 <= num_sent_ t <= Z.of_nat (length (tests_ t)) ->
  Z.of_nat (length (tests_ t)) < num_sent_ t + Z.of_nat n ->
  test_loop clock i n t = Undefined.
Proof.
  induction n as [|n IH]; intros i t Hlo Hhi; [lia|].
  simpl. unfold bind.
  destruct (Z.le_gt_cases (Z.of_nat (length (tests_ t))) (num_sent_ t)).
  - by rewrite test_body_past_the_end.
  - destruct (test_body_sends (clock i) t) as (t1 & -> & Hs & _ & Hc); [lia|].
    destruct Hc as (_&_&_&_&_&Hl). apply IH; rewrite Hl; lia.
Qed.

Lemma test_body_no_Throw now t e t' : test_body now t <> Throw e t'.
Proof.
  unfold test_body, tests_at, bind, get, defined, modify, sendto, tests_store.
  destruct (0 <=? num_sent_ t); [|done].
  destruct (tests_ t !! Z.to_nat (num_sent_ t)); done.
Qed.

Lemma test_loop_no_Throw clock n : forall i t e t',
  test_loop clock i n t <> Throw e t'.
Proof.
  induction n as [|n IH]; intros i t e t'; [done|].
  simpl. unfold bind.
  destruct (test_body (clock i) t) as [[] t1|e1 t1|] eqn:Hbody; [apply IH| |done].
  by apply test_body_no_Throw in Hbody.
Qed.

(** A burst size above [INT_MAX]: the counter of the loop overflows, if
    the loop gets that far. *)
Lemma test_overflow clock t : INT_MAX < num_burst_ t -> test clock t = Undefined.
Proof.
  intros H. unfold test, bind, get.
  destruct (Z.leb_spec (num_burst_ t) INT_MAX); [lia|].
  destruct (test_loop clock 0 (Z.to_nat (INT_MAX + 1)) t) as [[] t1|e t1|] eqn:E.
  - reflexivity.
  - by apply test_loop_no_Throw in E.
  - reflexivity.
Qed.

(** X1: [test] has no bound on what is left: a tick that finds fewer
    records left than the burst size, and so any tick after the last
    record was sent, runs past the end of [tests_]. *)
Theorem test_past_the_end clock t :
  0 <= num_sent_ t <= Z.of_nat (length (tests_ t)) ->
  Z.of_nat (length (tests_ t)) < num_sent_ t + num_burst_ t ->
  test clock t = Undefined.
Proof.
  intros Hlo Hhi. destruct (Z.le_gt_cases (num_burst_ t) INT_MAX).
  - unfold test, bind, get.
    destruct (Z.leb_spec (num_burst_ t) INT_MAX); [|lia].
    apply test_loop_past_the_end; [done|]. lia.
  - apply test_overflow. lia.
Qed.

Lemma test_past_the_end_witness :
  test (Scenario.clock 2) Scenario.sent_all = Undefined.
Proof.
  apply test_past_the_end; [vm_compute; split; discriminate|reflexivity].
Defined.

Lemma test_body_tests now t t' :
  test_body now t = Ret tt t' ->
  0 <= num_sent_ t /\ num_sent_ t' = num_sent_ t + 1 /\
  exists query,
    tests_ t !! Z.to_nat (num_sent_ t) = Some query /\
    tests_ t' = <[Z.to_nat (num_sent_ t) := stamped now query]> (tests_ t).
Proof.
  unfold test_body, tests_at, bind, get, defined, modify, sendto, tests_store.
  destruct (Z.leb_spec 0 (num_sent_ t)); [|done].
  destruct (tests_ t !! Z.to_nat (num_sent_ t)) as [q|] eqn:Hq; [|done].
  simpl. intros [= <-]. split; [done|]. split; [done|]. by exists q.
Qed.

Lemma test_loop_stamps clock n : forall i t t',
  test_loop clock i n t = Ret tt t' ->
  forall j : nat,
    tests_ t' !! j
    = if decide (Z.to_nat (num_sent_ t) <= j < Z.to_nat (num_sent_ t) + n)%nat
      then stamped (clock (i + (j - Z.to_nat (num_sent_ t)))%nat) <$> tests_ t !! j
      else tests_ t !! j.
Proof.
  induction n as [|n IH]; intros i t t' Hrun j.
  - injection Hrun as <-. case_decide; [lia|done].
  - simpl in Hrun. unfold bind in Hrun.
    destruct (test_body (clock i) t) as [[] t1| |] eqn:Hbody; [|done|done].
    apply test_body_tests in Hbody as (Hlo & Hs & q & Hq & Ht1).
    rewrite (IH _ _ _ Hrun j), Hs, Ht1.
    replace (Z.to_nat (num_sent_ t + 1)) with (S (Z.to_nat (num_sent_ t))) by lia.
    destruct (decide (j = Z.to_nat (num_sent_ t))) as [->|Hne].
    + rewrite list_lookup_insert_eq by (by eapply lookup_lt_Some).
      rewrite Hq. repeat case_decide; try lia. simpl.
      by replace (i + (Z.to_nat (num_sent_ t) - Z.to_nat (num_sent_ t)))%nat
        with i by lia.
    + rewrite list_lookup_insert_ne by done.
      repeat case_decide; try lia; try done.
      by replace (S i + (j - S (Z.to_nat (num_sent_ t))))%nat
        with (i + (j - Z.to_nat (num_sent_ t)))%nat by lia.
Qed.

(** A tick that returns has made [num_burst_] iterations. *)
Lemma test_Ret clock t t' :
  test clock t = Ret tt t' ->
  test_loop clock 0 (Z.to_nat (num_burst_ t)) t = Ret tt t'.
Proof.
  intros Hrun. destruct (Z.le_gt_cases (num_burst_ t) INT_MAX) as [Hle|Hgt].
  - revert Hrun. unfold test, bind, get.
    by destruct (Z.leb_spec (num_burst_ t) INT_MAX); [|lia].
  - rewrite test_overflow in Hrun by lia. done.
Qed.

(** X2: a tick that returns has given each record of its burst the
    clock's reading of its own turn, flags and round-trip time untouched,
    and has left every other record as it was. *)
Theorem test_stamps_burst clock t t' :
  test clock t = Ret tt t' ->
  forall j : nat,
    tests_ t' !! j
    = if decide (num_sent_ t <= Z.of_nat j < num_sent_ t + num_burst_ t)
      then stamped (clock (j - Z.to_nat (num_sent_ t))%nat) <$> tests_ t !! j
      else tests_ t !! j.
Proof.
  intros Hrun j. apply test_Ret in Hrun.
  rewrite (test_loop_stamps _ _ _ _ _ Hrun j). simpl.
  destruct (Z.to_nat (num_burst_ t)) as [|n] eqn:Hn.
  { injection Hrun as <-. repeat case_decide; try lia; done. }
  simpl in Hrun. unfold bind in Hrun.
  destruct (test_body (clock 0%nat) t) as [[] t1| |] eqn:Hbody; [|done|done].
  apply test_body_tests in Hbody as (Hlo & _).
  rewrite <- Hn. repeat case_decide; try lia; done.
Qed.

Lemma test_stamps_burst_witness :
  tests_ Examples.first_burst !! 1%nat
  = stamped 7 <$> tests_ Scenario.tester !! 1%nat.
Proof.
  exact (test_stamps_burst (fun _ => 7) Scenario.tester Examples.first_burst
           ltac:(vm_compute; reflexivity) 1%nat).
Defined.

(** ** The correlator, from conditions to outcome *)

Section MoreCorrelator.

Variable sscanf_addr : string -> option octets.

Lemma correlate_Throw answer time_received t e t' :
  correlate sscanf_addr answer time_received t = Throw e t' -> t' = t.
Proof.
  unfold correlate, bind, get, throw, defined.
  destruct (qdcount answer <? 1); [by intros [= _ <-]|].
  destruct (copy_label (label0 answer)) as [label|]; [|done].
  destruct (sscanf_addr label) as [temp|]; [|by intros [= _ <-]].
  destruct (ip_of_temp temp); [|done].
  destruct (host_mask_int (netmask_ t)); [|done].
  destruct (_ <=? _); [by intros [= _ <-]|].
  destruct (index_of_ip _ _) as [i|]; [|done].
  unfold tests_at, bind, get, defined.
  destruct (0 <=? i); [|done].
  destruct (tests_ t !! _); done.
Qed.

(** X3: whatever makes the loop body throw, a foreign sender, an answer
    without question, a label that does not scan, an index out of range or
    a failure of [recvfrom], the tester is then as it was before: no record
    is touched by a datagram that is turned down. *)
Theorem receive_Throw_unchanged ev t e t' :
  receive sscanf_addr ev t = Throw e t' -> t' = t.
Proof.
  destruct ev as [recvlen errno sender answer time_received| |]; simpl.
  - destruct (0 <? recvlen).
    + unfold bind, get, throw.
      destruct (sender_is_server sender (server_ t)); simpl.
      * apply correlate_Throw.
      * by intros [= _ <-].
    + unfold recvfrom_failed, throw. destruct errno; [done|by intros [= _ <-]].
  - done.
  - by intros [= _ <-].
Qed.

(** Every normal way out of the loop body. *)
Lemma receive_Ret_cases ev t t' :
  receive sscanf_addr ev t = Ret tt t' ->
  t' = t \/
  exists i query answer time_received,
    tests_ t !! i = Some query /\
    t' = set_tests (<[i := answer_record answer time_received query]> (tests_ t)) t.
Proof.
  destruct ev as [recvlen errno sender answer time_received| |].
  - intros H.
    apply receive_Datagram_Ret in H as [(_ & _ & ->)|(_ & _ & H)]; [by left|].
    right.
    apply correlate_Ret in H as (_ & _ & i & query & _ & _ & _ & _ & _ & Hq & ->).
    by exists (Z.to_nat i), query, answer, time_received.
  - simpl. intros [= <-]. by left.
  - done.
Qed.

Lemma receive_frame ev t t' :
  receive sscanf_addr ev t = Ret tt t' ->
  num_sent_ t' = num_sent_ t /\ wire_ t' = wire_ t /\ same_setup t t'.
Proof.
  intros H. apply receive_Ret_cases in H
    as [->|(i & query & answer & time_received & Hq & ->)].
  - auto using same_setup_refl.
  - unfold same_setup, set_tests. simpl. repeat split. apply length_insert.
Qed.

(** X4: the range check is against the number of requests, not against
    the number sent: on a tester fresh from the constructor, with nothing
    sent yet, an answer from the server (a datagram of at least one octet,
    its first label of at most 63) that names any of the addresses to come
    is taken, and the record is marked received with the arrival time
    itself as round-trip time (the send time still being the epoch). *)
Theorem unsent_query_answered htons server_addr port ip netmask num_req
    num_burst burst_delay recvlen errno sender answer time_received temp a :
  let t0 := DnsTester_new htons server_addr port ip netmask num_req num_burst
              burst_delay in
  0 < recvlen ->
  sin6_addr sender = server_addr -> sin6_port sender = htons port ->
  1 <= qdcount answer ->
  (String.length (label0 answer) < 64)%nat ->
  sscanf_addr (label0 answer) = Some temp ->
  ip_of_temp temp = Some a ->
  2 <= netmask <= 32 ->
  Z.land a (Z.ones (32 - netmask)) < num_req ->
  exists t',
    receive sscanf_addr (Datagram recvlen errno sender answer time_received) t0
    = Ret tt t' /\
    num_sent_ t' = 0 /\ wire_ t' = [] /\
    tests_ t' !! Z.to_nat (Z.land a (Z.ones (32 - netmask)))
    = Some {| time_sent_ := 0; received_ := true;
              answered_ := (qr answer =? 1) && (rcode answer =? RCODE_NoError)
                           && (0 <? ancount answer);
              rtt_ := Some time_received |}.
Proof.
  intros t0 Hlen Haddr Hport Hqd Hshort Hscan Hip Hnm Hlt.
  destruct (ip_of_temp_defined temp) as (a' & Ha' & Hrange).
  assert (a' = a) as -> by congruence.
  assert (Hidx : 0 <= Z.land a (Z.ones (32 - netmask)))
    by (apply Z.land_nonneg; lia).
  assert (Hq : tests_ t0 !! Z.to_nat (Z.land a (Z.ones (32 - netmask)))
               = Some DnsQuery_new).
  { simpl. apply lookup_replicate_2. lia. }
  eexists. split.
  - apply (receive_accepts sscanf_addr recvlen errno sender answer
             time_received t0 temp a DnsQuery_new); try done.
    apply sender_is_server_spec. by split.
  - split; [done|]. split; [done|].
    unfold set_tests. simpl tests_.
    rewrite list_lookup_insert_eq by (rewrite length_replicate; lia).
    unfold answer_record. simpl. by rewrite Z.sub_0_r.
Qed.

(** X5: of two answers to the same question the second wins: if the
    loop body takes one answer and then another (a datagram of at least one
    octet) whose first label is the same, the tester ends as if the second
    had come alone. The round-trip time and the answered flag of the first
    are overwritten. *)
Theorem duplicate_answer_overwrites recvlen1 errno1 sender1 answer1 time1
    recvlen2 errno2 sender2 answer2 time2 t t1 t2 :
  label0 answer1 = label0 answer2 ->
  0 < recvlen2 ->
  receive sscanf_addr (Datagram recvlen1 errno1 sender1 answer1 time1) t
    = Ret tt t1 ->
  receive sscanf_addr (Datagram recvlen2 errno2 sender2 answer2 time2) t1
    = Ret tt t2 ->
  receive sscanf_addr (Datagram recvlen2 errno2 sender2 answer2 time2) t
    = Ret tt t2.
Proof.
  intros Hlabel Hlen2 H1 H2.
  apply receive_Datagram_Ret in H1 as [(_ & _ & ->)|(_ & Hs1 & H1)]; [done|].
  apply receive_Datagram_Ret in H2 as [(? & _)|(_ & Hs2 & H2)]; [lia|].
  apply correlate_Ret_mask in H1
    as (temp & ip & query & _ & _ & Hscan & Hip & Hnm & Hlt & Hq & ->).
  change (server_ (set_tests _ t)) with (server_ t) in Hs2.
  apply correlate_Ret_mask in H2
    as (temp2 & ip2 & query2 & Hqd2 & Hshort2 & Hscan2 & Hip2 & _ & _ & Hq2 & ->).
  rewrite <- Hlabel, Hscan in Hscan2. injection Hscan2 as <-.
  rewrite Hip in Hip2. injection Hip2 as <-.
  unfold set_tests in Hq2. simpl in Hq2.
  rewrite list_lookup_insert_eq in Hq2 by (by eapply lookup_lt_Some).
  injection Hq2 as <-.
  rewrite (receive_accepts sscanf_addr recvlen2 errno2 sender2 answer2 time2 t
             temp ip query); try done; try lia.
  - unfold set_tests. simpl. do 2 f_equal.
    by rewrite list_insert_insert_eq.
  - by rewrite <- Hlabel.
Qed.

End MoreCorrelator.

Lemma receive_Throw_unchanged_witness :
  exists e t',
    receive Scenario.sscanf_addr
      (Scenario.datagram Scenario.dut (Scenario.response "0-0-0-5") 10000000)
      Scenario.sent_all = Throw e t' /\
    t' = Scenario.sent_all.
Proof.
  exists IndexOutOfRange, Scenario.sent_all.
  split; [vm_compute; reflexivity|].
  apply (receive_Throw_unchanged Scenario.sscanf_addr
           (Scenario.datagram Scenario.dut (Scenario.response "0-0-0-5")
              10000000)
           Scenario.sent_all IndexOutOfRange Scenario.sent_all).
  vm_compute. reflexivity.
Defined.

Lemma unsent_query_answered_witness :
  exists t',
    receive Scenario.sscanf_addr Scenario.first_answer Scenario.tester
      = Ret tt t' /\
    tests_ t' !! 0%nat
    = Some {| time_sent_ := 0; received_ := true; answered_ := true;
              rtt_ := Some 10000000 |}.
Proof.
  destruct (unsent_query_answered Scenario.sscanf_addr Scenario.htons Scenario.dut_addr 53
              Scenario.base_ip 24 4 2 1000000 64 false Scenario.dut
              (Scenario.response "192-0-2-0") 10000000 (192, 0, 2, 0)
              Scenario.base_ip ltac:(lia) eq_refl eq_refl ltac:(simpl; lia)
              ltac:(simpl; lia) eq_refl eq_refl
              ltac:(lia) ltac:(reflexivity))
    as (t' & Hrun & _ & _ & Hrec).
  exists t'. split; [exact Hrun|exact Hrec].
Defined.

Lemma duplicate_answer_overwrites_witness :
  receive Scenario.sscanf_addr Examples.second_answer Scenario.sent_all
  = Ret tt Examples.answered_again.
Proof.
  exact (duplicate_answer_overwrites Scenario.sscanf_addr 64 false Scenario.dut
           (Scenario.response "192-0-2-0") 10000000 64 false Scenario.dut
           Examples.servfail 30000000 Scenario.sent_all Scenario.answered_once
           Examples.answered_again eq_refl ltac:(lia)
           ltac:(vm_compute; reflexivity) ltac:(vm_compute; reflexivity)).
Defined.

(** ** What every run keeps *)

Section MoreInvariants.

Variable sscanf_addr : string -> option octets.



(** One move of the sender keeps the counter and the wire in step. *)
Lemma sender_move_inv ip num_req now pc t pc' t' :
  sender_move now pc t = Ret pc' t' ->
  fine_inv ip num_req (t, pc) ->
  fine_inv ip num_req (t', pc') /\ num_sent_ t <= num_sent_ t'.
Proof.
  unfold fine_inv. simpl.
  intros Hmove (Hip & Hreq & Hlen & Hlo & Hhi & Hwire & Hbusy & Hlabel).
  destruct pc; simpl in Hmove;
    unfold tests_at, tests_store, sendto, bind, get, defined, modify, ret
      in Hmove.
  - destruct (Z.leb_spec 0 (num_sent_ t)); [|done].
    destruct (tests_ t !! Z.to_nat (num_sent_ t)) as [q|] eqn:Hq; [|done].
    injection Hmove as <- <-. apply lookup_lt_Some in Hq. simpl in *.
    split; [|lia]. repeat split; try done; try lia. by rewrite Hip.
  - injection Hmove as <- <-. simpl in *.
    split; [|lia]. specialize (Hbusy ltac:(done)).
    repeat split; try done; try lia.
    rewrite Hwire, (Hlabel eq_refl), Z.add_0_r.
    by rewrite (burst_labels_app ip 0 (num_sent_ t) 1) by lia.
  - destruct (Z.leb_spec 0 (num_sent_ t)); [|done].
    destruct (tests_ t !! Z.to_nat (num_sent_ t)) as [q|] eqn:Hq; [|done].
    injection Hmove as <- <-. simpl in *.
    split; [|lia]. repeat split; try done; try lia.
    rewrite length_insert. done.
  - injection Hmove as <- <-. simpl in *.
    split; [|lia]. repeat split; try done; try lia.
    by rewrite Hwire, Z.add_0_r.
Qed.

(** The loop body keeps them too, wherever the sender stands. *)
Lemma receive_fine_inv ip num_req ev pc t t' :
  receive sscanf_addr ev t = Ret tt t' ->
  fine_inv ip num_req (t, pc) ->
  fine_inv ip num_req (t', pc) /\ num_sent_ t' = num_sent_ t.
Proof.
  intros H. apply receive_Ret_cases in H
    as [->|(i & query & answer & time_received & Hq & ->)]; [done|].
  unfold fine_inv. simpl. rewrite length_insert. done.
Qed.

Lemma fine_reachable_inv htons server_addr port ip netmask num_req
    num_burst burst_delay c :
  0 <= num_req ->
  fine_reachable sscanf_addr
    (DnsTester_new htons server_addr port ip netmask num_req num_burst
       burst_delay) c ->
  fine_inv ip num_req c.
Proof.
  intros Hreq Hreach. induction Hreach as [|c c' _ IH Hstep].
  - unfold fine_inv. simpl. rewrite length_replicate.
    repeat split; try done; lia.
  - destruct Hstep as [now t pc t' pc' H|ev t pc t' H].
    + by apply (sender_move_inv ip num_req) in H as [H _].
    + by apply (receive_fine_inv ip num_req _ pc) in H as [H _].
Qed.

(** X7: wherever the two threads stand, move by move from the
    constructor on (for a number of requests the constructor's [int]
    counter can reach), the record array has kept its size, the counter of
    queries sent is not negative, and the datagrams handed to [sendto] so
    far are exactly the queries number 0 up to the counter, each once and in
    this order; between [sendto] and the increment of the counter the wire
    is one query ahead of the counter, and the two together never pass the
    number of requests. *)
Theorem reachable_sent_in_order htons server_addr port ip netmask num_req
    num_burst burst_delay t pc :
  0 <= num_req <= INT_MAX ->
  fine_reachable sscanf_addr
    (DnsTester_new htons server_addr port ip netmask num_req num_burst
       burst_delay) (t, pc) ->
  num_req_ t = num_req /\
  Z.of_nat (length (tests_ t)) = num_req /\
  0 <= num_sent_ t /\ num_sent_ t + in_flight pc <= num_req /\
  wire_ t = burst_labels ip 0 (num_sent_ t + in_flight pc).
Proof.
  intros [Hreq _] Hreach.
  apply fine_reachable_inv in Hreach
    as (_ & Hnr & Hlen & Hlo & Hhi & Hwire & _); done.
Qed.

(** The four moves of the sender make up one iteration of [test]. *)
Lemma sender_moves_test_body now1 now2 now3 now4 t :
  sends [now1; now2; now3; now4] Idle t
  = (test_body now3 ;;; ret Idle) t.
Proof.
  destruct (0 <=? num_sent_ t) eqn:Hlo;
    [destruct (tests_ t !! Z.to_nat (num_sent_ t)) as [q|] eqn:Hq|];
    repeat (cbn [sends sender_move];
            unfold test_body, tests_at, tests_store, sendto, stamped, bind, get,
              defined, modify, ret;
            simpl; rewrite ?Hlo, ?Hq); done.
Qed.

(** X8: in every tester reachable from the constructor each record
    marked received holds a round-trip time, and so [display] returns a
    summary, and leaves the tester as it is, after any run whatever. *)
Theorem reachable_display_defined pow htons server_addr port ip netmask
    num_req num_burst burst_delay t :
  reachable sscanf_addr
    (DnsTester_new htons server_addr port ip netmask num_req num_burst
       burst_delay) t ->
  Forall (fun query => received_ query = true -> is_Some (rtt_ query))
    (tests_ t) /\
  exists s, display pow t = Ret s t.
Proof.
  intros Hreach.
  assert (Hall : Forall (fun query => received_ query = true ->
                                      is_Some (rtt_ query)) (tests_ t)).
  { revert Hreach. apply records_invariant.
    - by apply DnsTester_new_records.
    - intros query query' H [now|answer time_received]; simpl; eauto. }
  split; [exact Hall|]. by apply display_defined.
Qed.

(** The moves of the sender are moves of the run, and so every tester
    reached by whole iterations is reached move by move. *)
Lemma sends_fine_reachable t0 nows : forall pc t pc' t',
  sends nows pc t = Ret pc' t' ->
  fine_reachable sscanf_addr t0 (t, pc) ->
  fine_reachable sscanf_addr t0 (t', pc').
Proof.
  induction nows as [|now nows IH]; intros pc t pc' t' Hrun Hreach.
  - by injection Hrun as <- <-.
  - simpl in Hrun. unfold bind in Hrun.
    destruct (sender_move now pc t) as [pc1 t1| |] eqn:Hmove; [|done|done].
    eapply IH; [exact Hrun|].
    eapply fine_reachable_step; [exact Hreach|]. by eapply fine_send.
Qed.

Lemma reachable_fine t0 t :
  reachable sscanf_addr t0 t -> fine_reachable sscanf_addr t0 (t, Idle).
Proof.
  induction 1 as [|t t' _ IH Hstep]; [apply fine_reachable_init|].
  destruct Hstep as [now t' H|ev t' H].
  - apply (sends_fine_reachable t0 [now; now; now; now] Idle t); [|done].
    rewrite sender_moves_test_body. unfold bind. by rewrite H.
  - eapply fine_reachable_step; [exact IH|]. by eapply fine_receive.
Qed.

Lemma sends_inv ip num_req nows : forall pc t pc' t',
  sends nows pc t = Ret pc' t' ->
  fine_inv ip num_req (t, pc) ->
  fine_inv ip num_req (t', pc') /\ num_sent_ t <= num_sent_ t'.
Proof.
  induction nows as [|now nows IH]; intros pc t pc' t' Hrun Hinv.
  - injection Hrun as <- <-. split; [done|lia].
  - simpl in Hrun. unfold bind in Hrun.
    destruct (sender_move now pc t) as [pc1 t1| |] eqn:Hmove; [|done|done].
    apply (sender_move_inv ip num_req) in Hmove as [Hinv1 Hle1]; [|done].
    apply IH in Hrun as [Hinv' Hle']; [|done]. split; [done|lia].
Qed.

(** The loop body, taken apart. *)
Lemma loop_body_Ret it pc t r t' :
  loop_body sscanf_addr it pc t = Ret r t' ->
  exists pc1 t1 t2,
    sends (before it) pc t = Ret pc1 t1 /\
    r.1 = negb (remaining t1 =? 0) /\
    sends (during it) pc1 t1 = Ret r.2 t2 /\
    receive sscanf_addr (event it) t2 = Ret tt t'.
Proof.
  unfold loop_body. unfold bind at 1.
  destruct (sends (before it) pc t) as [pc1 t1| |] eqn:Hb; [|done|done].
  unfold bind at 1. unfold get. unfold bind at 1.
  destruct (sends (during it) pc1 t1) as [pc2 t2| |] eqn:Hd; [|done|done].
  unfold bind, ret.
  destruct (receive sscanf_addr (event it) t2) as [[] t3| |] eqn:Hrecv;
    [|done|done].
  intros [= <- <-]. by exists pc1, t1, t2.
Qed.

(** A passage in which the sender does nothing. *)
Lemma loop_body_Receiver ev pc t :
  loop_body sscanf_addr (Receiver ev) pc t
  = (receive sscanf_addr ev ;;; ret (negb (remaining t =? 0), pc)) t.
Proof. reflexivity. Qed.

Lemma run_from_inv ip num_req moves : forall pc t c t',
  0 <= num_req < 2 ^ 32 ->
  fine_inv ip num_req (t, pc) ->
  run_from sscanf_addr pc moves t = Ret c t' ->
  exists pc', fine_inv ip num_req (t', pc') /\
              (c = false -> num_sent_ t' = num_req /\ pc' = Idle).
Proof.
  induction moves as [|it moves IH]; intros pc t c t' Hreq Hinv Hrun.
  - injection Hrun as <- <-. by exists pc.
  - simpl in Hrun. unfold bind in Hrun.
    destruct (loop_body sscanf_addr it pc t) as [[c1 pc2] t3| |] eqn:Hbody;
      [|done|done].
    apply loop_body_Ret in Hbody as (pc1 & t1 & t2 & Hb & Hc & Hd & Hrecv).
    simpl in Hc, Hd, Hrun.
    apply (sends_inv ip num_req) in Hb as [Hinv1 _]; [|done].
    pose proof Hinv1 as (_ & Hnr1 & _ & Hlo1 & Hhi1 & _ & Hbusy1 & _).
    simpl in Hnr1, Hlo1, Hhi1, Hbusy1.
    apply (sends_inv ip num_req) in Hd as [Hinv2 Hle2]; [|done].
    apply (receive_fine_inv ip num_req _ pc2) in Hrecv as [Hinv3 Hs3]; [|done].
    destruct c1; [by eapply IH|].
    injection Hrun as <- <-. exists pc2. split; [done|]. intros _.
    symmetry in Hc. apply negb_false_iff, Z.eqb_eq in Hc.
    unfold remaining, uint32 in Hc. rewrite Hnr1 in Hc.
    assert (0 <= in_flight pc1) by (destruct pc1; simpl; lia).
    rewrite Z.mod_small in Hc by lia.
    destruct Hinv3 as (_ & _ & _ & _ & Hhi3 & _ & Hbusy3 & _).
    simpl in Hhi3, Hbusy3.
    assert (0 <= in_flight pc2) by (destruct pc2; simpl; lia).
    split; [lia|].
    destruct pc2; try done; specialize (Hbusy3 ltac:(done)); lia.
Qed.

(** X9: [start] leaves its loop only after every query has gone out:
    along any schedule of sender and receiver moves from the constructor, if
    the loop is left then the counter has reached the number of requests and
    the wire holds the queries number 0 up to [num_req - 1] in order. *)
Theorem start_returns_after_all_sent htons server_addr port ip netmask
    num_req num_burst burst_delay moves t :
  0 <= num_req < 2 ^ 32 ->
  run sscanf_addr moves
    (DnsTester_new htons server_addr port ip netmask num_req num_burst
       burst_delay) = Ret false t ->
  num_sent_ t = num_req /\ wire_ t = burst_labels ip 0 num_req.
Proof.
  intros Hreq Hrun.
  apply (run_from_inv ip num_req) in Hrun as (pc' & Hinv & Hleft); [|done|].
  - destruct (Hleft eq_refl) as [Hsent ->].
    destruct Hinv as (_ & _ & _ & _ & _ & Hwire & _). simpl in Hwire.
    split; [done|]. by rewrite Hwire, Hsent, Z.add_0_r.
  - unfold fine_inv. simpl. rewrite length_replicate.
    repeat split; try done; lia.
Qed.

(** X10: what [start] still looks at once the last query is out. If the
    counter has reached the number of requests when the loop reads it, the
    loop goes through its body one more time and is left, whatever the
    schedule still holds: one more datagram is looked at. If the loop has
    read the counter before and the last queries go out while it waits in
    [recvfrom], it goes through its body twice: two more datagrams are
    looked at. *)
Theorem start_drops_late_answers ev moves t :
  (num_sent_ t = num_req_ t ->
   run sscanf_addr (Receiver ev :: moves) t
   = (receive sscanf_addr ev ;;; ret false) t)
  /\
  (forall nows ev2 pc1 t1,
     remaining t <> 0 ->
     sends nows Idle t = Ret pc1 t1 ->
     num_sent_ t1 = num_req_ t1 ->
     run sscanf_addr
       ({| before := []; during := nows; event := ev |} :: Receiver ev2 :: moves)
       t
     = (sends nows Idle ;;; receive sscanf_addr ev ;;;
        receive sscanf_addr ev2 ;;; ret false) t).
Proof.
  split.
  - intros Hsent. unfold run. cbn [run_from]. unfold bind at 1.
    rewrite loop_body_Receiver.
    assert (Hz : remaining t = 0).
    { unfold remaining. rewrite Hsent, Z.sub_diag. reflexivity. }
    rewrite Hz. unfold bind, ret.
    destruct (receive sscanf_addr ev t) as [[] t1| |]; done.
  - intros nows ev2 pc1 t1 Hrem Hsends Hsent.
    unfold run. cbn [run_from]. unfold bind at 1. unfold loop_body at 1.
    cbn [before during event sends]. unfold bind at 1. unfold ret at 1.
    unfold bind at 1. unfold get at 1. unfold bind at 1. rewrite Hsends.
    transitivity ((receive sscanf_addr ev ;;; receive sscanf_addr ev2 ;;;
                   ret false) t1).
    2: { symmetry. unfold bind at 1. by rewrite Hsends. }
    unfold bind.
    destruct (receive sscanf_addr ev t1) as [[] t2| |] eqn:Hrecv; [|done|done].
    unfold ret at 1. cbn [fst snd].
    destruct (Z.eqb_spec (remaining t) 0) as [|_]; [done|]. cbn [negb].
    rewrite loop_body_Receiver.
    apply receive_frame in Hrecv as (Hs & _ & _ & _ & _ & Hr & _).
    assert (Hz : remaining t2 = 0).
    { unfold remaining. rewrite Hs, Hr, Hsent, Z.sub_diag. reflexivity. }
    rewrite Hz. unfold bind, ret.
    destruct (receive sscanf_addr ev2 t2) as [[] t3| |]; done.
Qed.

Lemma run_receivers_waiting evs : forall pc t t',
  remaining t <> 0 ->
  run_from sscanf_addr pc (Receiver <$> evs) t <> Ret false t'.
Proof.
  induction evs as [|ev evs IH]; intros pc t t' Hrem; [done|].
  rewrite fmap_cons. cbn [run_from].
  unfold bind at 1. rewrite loop_body_Receiver. unfold bind, ret.
  destruct (receive sscanf_addr ev t) as [[] t1| |] eqn:Hrecv; [|done|done].
  cbn [fst snd]. destruct (Z.eqb_spec (remaining t) 0); [done|]. cbn [negb].
  apply IH.
  apply receive_frame in Hrecv as (Hs & _ & _ & _ & _ & Hr & _).
  unfold remaining in *. by rewrite Hs, Hr.
Qed.

(** A timer that returns from at least one tick has a burst size the
    counter of the loop of [test] can reach. *)
Lemma Timer_run_Ret clock n : forall k t t',
  Timer_run (fun j => test (clock j)) k (S n) t = Ret tt t' ->
  num_burst_ t <= INT_MAX.
Proof.
  intros k t t' Hrun. destruct (Z.le_gt_cases (num_burst_ t) INT_MAX); [done|].
  simpl in Hrun. unfold bind in Hrun.
  rewrite test_overflow in Hrun by lia. done.
Qed.

(** X11: when the burst size does not divide the number of requests,
    [start] never leaves its loop once the timer is through: the counter
    stops short of the number of requests, and no sequence of datagrams,
    timeouts included, ends the loop other than by an exception. *)
Theorem start_waits_forever htons server_addr port ip netmask num_req
    num_burst burst_delay clock t evs t' :
  0 <= num_req < 2 ^ 32 -> 0 < num_burst ->
  num_req mod num_burst <> 0 ->
  start_timer clock
    (DnsTester_new htons server_addr port ip netmask num_req num_burst
       burst_delay) = Ret tt t ->
  num_sent_ t < num_req /\
  run sscanf_addr (Receiver <$> evs) t <> Ret false t'.
Proof.
  intros Hreq Hburst Hmod Hstart.
  set (t0 := DnsTester_new htons server_addr port ip netmask num_req num_burst
               burst_delay) in *.
  assert (Hle : num_req / num_burst * num_burst <= num_req).
  { pose proof (Z.mul_div_le num_req num_burst). lia. }
  assert (0 <= num_req / num_burst) by (apply Z.div_pos; lia).
  pose proof (Z.div_mod num_req num_burst).
  pose proof (Z.mod_pos_bound num_req num_burst).
  unfold start_timer, bind, get, defined, timer_count, u32_div in Hstart.
  simpl in Hstart.
  destruct (Z.eqb_spec num_burst 0); [lia|].
  assert (Hshort : 0 <= num_sent_ t < num_req /\ num_req_ t = num_req).
  { destruct (Z.to_nat (num_req / num_burst)) as [|ticks] eqn:Hticks.
    { injection Hstart as <-. simpl. lia. }
    pose proof (Timer_run_Ret _ _ _ _ _ Hstart) as Hmax. simpl in Hmax.
    rewrite <- Hticks in Hstart.
    destruct (Timer_run_bursts clock (Z.to_nat (num_req / num_burst)) 0%nat t0)
      as (t1 & Hrun & Hs & _ & Hc).
    { simpl; lia. } { simpl; lia. }
    { simpl. rewrite length_replicate. lia. }
    rewrite Hrun in Hstart. injection Hstart as <-.
    simpl in Hs. rewrite Z2Nat.id in Hs by lia.
    destruct Hc as (_ & _ & _ & Hnr & _). simpl in Hnr.
    clear Hmax. split; [lia|done]. }
  destruct Hshort as [Hshort Hnr].
  split; [lia|]. apply run_receivers_waiting.
  unfold remaining, uint32. rewrite Hnr, Z.mod_small; lia.
Qed.

End MoreInvariants.

(** C1, where the code parts from it: five requests in bursts of two.
    [start] asks the timer for 5 / 2 = 2 invocations where the quotient
    rounded up is 3; each of the two ticks sends a whole burst, so four
    queries go out and the counter stops at 4, one short of the number of
    requests: there is no last, shorter burst. The loop of [start], which is
    left only when nothing remains to be sent, is then left by no sequence
    of datagrams and timeouts. *)
Theorem scheduler_misses_partial_burst :
  let t0 := DnsTester_new Scenario.htons Scenario.dut_addr 53 Scenario.base_ip
              24 5 2 1000000 in
  timer_count t0 = Some 2 /\
  (5 + 2 - 1) / 2 = 3 /\
  start_timer Scenario.clock t0 = Ret tt Examples.five_by_two /\
  num_req_ Examples.five_by_two = 5 /\
  num_sent_ Examples.five_by_two = 4 /\
  wire_ Examples.five_by_two = burst_labels Scenario.base_ip 0 4 /\
  test (Scenario.clock 2) Examples.five_by_two = Undefined /\
  forall evs t',
    run Scenario.sscanf_addr (Receiver <$> evs) Examples.five_by_two
    <> Ret false t'.
Proof.
  cbv zeta. do 7 (split; [vm_compute; reflexivity|]).
  intros evs t'. apply run_receivers_waiting. vm_compute. discriminate.
Qed.

Lemma reachable_sent_in_order_witness :
  num_sent_ Examples.first_in_flight = 0 /\
  wire_ Examples.first_in_flight
  = burst_labels Scenario.base_ip 0
      (num_sent_ Examples.first_in_flight + in_flight Sent).
Proof.
  split; [reflexivity|].
  refine (proj2 (proj2 (proj2 (proj2
    (reachable_sent_in_order Scenario.sscanf_addr Scenario.htons
       Scenario.dut_addr 53 Scenario.base_ip 24 4 2 1000000
       Examples.first_in_flight Sent ltac:(unfold INT_MAX; lia) _))))).
  apply (fine_reachable_step _ _
           (Scenario.after (sends [0] Idle ;;; ret tt) Scenario.tester,
            Labelled)).
  - eapply fine_reachable_step; [apply fine_reachable_init|].
    apply (fine_send _ 0). vm_compute. reflexivity.
  - apply (fine_send _ 0). vm_compute. reflexivity.
Defined.

Lemma reachable_display_defined_witness :
  exists s, display Scenario.pow Scenario.first_answered
            = Ret s Scenario.first_answered.
Proof.
  refine (proj2
    (reachable_display_defined Scenario.sscanf_addr Scenario.pow Scenario.htons
       Scenario.dut_addr 53 Scenario.base_ip 24 4 2 1000000
       Scenario.first_answered _)).
  eapply reachable_step.
  - eapply reachable_step; [apply reachable_init|].
    apply (step_send _ _ 0). vm_compute. reflexivity.
  - apply (step_receive _ _ Scenario.first_answer). vm_compute. reflexivity.
Defined.

Lemma start_returns_after_all_sent_witness :
  num_sent_ Scenario.answered_once = 4.
Proof.
  refine (proj1
    (start_returns_after_all_sent Scenario.sscanf_addr Scenario.htons
       Scenario.dut_addr 53 Scenario.base_ip 24 4 2 1000000
       [{| before := [0; 0; 0; 0; 0; 0; 0; 0];
           during := [];
           event := TimedOut |};
        {| before := [1000000; 1000000; 1000000; 1000000;
                      1000000; 1000000; 1000000; 1000000];
           during := [];
           event := Scenario.first_answer |}]
       Scenario.answered_once ltac:(lia) _)).
  vm_compute. reflexivity.
Defined.

Lemma start_drops_late_answers_witness :
  run Scenario.sscanf_addr
    [Receiver Scenario.first_answer; Receiver Examples.second_answer]
    Scenario.sent_all
  = Ret false Scenario.answered_once
  /\
  run Scenario.sscanf_addr
    [{| before := []; during := [0; 0; 0; 0; 0; 0; 0; 0; 0; 0; 0; 0; 0; 0; 0; 0];
        event := Scenario.first_answer |};
     Receiver Examples.second_answer]
    Scenario.tester
  = Ret false Examples.answered_again_early.
Proof.
  split.
  - rewrite (proj1 (start_drops_late_answers Scenario.sscanf_addr
                      Scenario.first_answer [Receiver Examples.second_answer]
                      Scenario.sent_all) eq_refl).
    vm_compute. reflexivity.
  - rewrite (proj2 (start_drops_late_answers Scenario.sscanf_addr
                      Scenario.first_answer [] Scenario.tester)
               [0; 0; 0; 0; 0; 0; 0; 0; 0; 0; 0; 0; 0; 0; 0; 0]
               Examples.second_answer Idle Examples.sent_early
               ltac:(vm_compute; discriminate) ltac:(vm_compute; reflexivity)
               eq_refl).
    vm_compute. reflexivity.
Defined.

Lemma start_waits_forever_witness :
  num_sent_ Examples.five_by_two < 5.
Proof.
  refine (proj1
    (start_waits_forever Scenario.sscanf_addr Scenario.htons Scenario.dut_addr
       53 Scenario.base_ip 24 5 2 1000000 Scenario.clock Examples.five_by_two
       [] Examples.five_by_two ltac:(lia) ltac:(lia) ltac:(discriminate) _)).
  vm_compute. reflexivity.
Defined.

(** ** Labels and addresses *)

Lemma land_255_uint8 x : Z.land x 255 = uint8 x.
Proof. unfold uint8. change 255 with (Z.ones 8). by rewrite Z.land_ones. Qed.

Lemma uint8_bits x n :
  0 <= n -> Z.testbit (uint8 x) n = Z.testbit x n && (n <? 8).
Proof.
  intros Hn. rewrite <- land_255_uint8, Z.land_spec. change 255 with (Z.ones 8).
  destruct (Z.ltb_spec n 8).
  - by rewrite Z.ones_spec_low by lia.
  - by rewrite Z.ones_spec_high by lia.
Qed.

Lemma shifted_octet_bits x s n :
  0 <= s -> 0 <= n ->
  Z.testbit (uint8 x * 2 ^ s) n
  = Z.testbit x (n - s) && (s <=? n) && (n <? s + 8).
Proof.
  intros Hs Hn. rewrite <- Z.shiftl_mul_pow2 by lia.
  destruct (Z.leb_spec s n).
  - rewrite Z.shiftl_spec, uint8_bits by lia.
    rewrite andb_true_r. f_equal.
    destruct (Z.ltb_spec (n - s) 8), (Z.ltb_spec n (s + 8)); lia || done.
  - rewrite Z.shiftl_spec_low by lia. by rewrite andb_false_r.
Qed.

(** X12: the other way round from the sender's printing: the address
    rebuilt from four scanned octets prints back as the same four octets
    (each taken modulo 256, as [%hhu] stores it). *)
Theorem label_of_ip_of_temp t0 t1 t2 t3 ip :
  ip_of_temp (t0, t1, t2, t3) = Some ip ->
  label_of_ip ip = (uint8 t0, uint8 t1, uint8 t2, uint8 t3).
Proof.
  unfold ip_of_temp.
  assert (Hshl : forall x s, 0 <= s <= 24 ->
            int_shl (uint8 x) s = Some (to_int (uint8 x * 2 ^ s))).
  { intros x s Hs. unfold int_shl.
    assert (0 <= uint8 x < 2 ^ 8) by (apply Z.mod_pos_bound; lia).
    assert (0 < 2 ^ s <= 2 ^ 24).
    { split; [apply Z.pow_pos_nonneg; lia|apply Z.pow_le_mono_r; lia]. }
    assert (uint8 x * 2 ^ s < 2 ^ 32).
    { change (2 ^ 32) with (2 ^ 8 * 2 ^ 24). nia. }
    repeat match goal with
    | |- context [?a <=? ?b] => destruct (Z.leb_spec a b); [|lia]
    | |- context [?a <? ?b] => destruct (Z.ltb_spec a b); [|lia]
    end. done. }
  rewrite !Hshl by lia. simpl. intros [= <-].
  rewrite !uint32_lor, !uint32_to_int, <- !uint32_lor.
  assert (Hbits : forall s n, 0 <= s -> 0 <= n -> s + n < 32 ->
    Z.testbit (uint32 (Z.lor (Z.lor (Z.lor (uint8 t0 * 2 ^ 24)
                 (uint8 t1 * 2 ^ 16)) (uint8 t2 * 2 ^ 8)) (uint8 t3))) (n + s)
    = Z.testbit (Z.lor (Z.lor (Z.lor (uint8 t0 * 2 ^ 24)
                 (uint8 t1 * 2 ^ 16)) (uint8 t2 * 2 ^ 8)) (uint8 t3)) (n + s)).
  { intros s n Hs Hn Hlt. rewrite uint32_land, Z.land_spec.
    by rewrite Z.ones_spec_low, andb_true_r by lia. }
  assert (Hoctet : forall s x, 0 <= s -> s + 8 <= 32 ->
    (forall n, 0 <= n < 8 ->
       Z.testbit (Z.lor (Z.lor (Z.lor (uint8 t0 * 2 ^ 24) (uint8 t1 * 2 ^ 16))
                    (uint8 t2 * 2 ^ 8)) (uint8 t3)) (n + s) = Z.testbit x n) ->
    uint8 (Z.shiftr (uint32 (Z.lor (Z.lor (Z.lor (uint8 t0 * 2 ^ 24)
             (uint8 t1 * 2 ^ 16)) (uint8 t2 * 2 ^ 8)) (uint8 t3))) s) = uint8 x).
  { intros s x Hs Hs8 Hx. apply Z.bits_inj'. intros n Hn.
    rewrite !uint8_bits by lia.
    destruct (Z.ltb_spec n 8); [|by rewrite !andb_false_r].
    rewrite !andb_true_r, Z.shiftr_spec, Hbits by lia. apply Hx. lia. }
  unfold label_of_ip. rewrite !land_255_uint8.
  rewrite <- (Z.shiftr_0_r (uint32 _)) at 4.
  rewrite (Hoctet 24 t0), (Hoctet 16 t1), (Hoctet 8 t2), (Hoctet 0 t3);
    try lia; try done;
    intros n Hn; rewrite !Z.lor_spec, !shifted_octet_bits, uint8_bits by lia;
    repeat match goal with
    | |- context [?a <=? ?b] => destruct (Z.leb_spec a b); try lia
    | |- context [?a <? ?b] => destruct (Z.ltb_spec a b); try lia
    end;
    rewrite ?andb_false_r, ?andb_true_r, ?orb_false_r, ?orb_false_l;
    f_equal; lia.
Qed.

Lemma label_of_ip_of_temp_witness :
  label_of_ip 5 = (uint8 256, uint8 0, uint8 0, uint8 5).
Proof. exact (label_of_ip_of_temp 256 0 0 5 5 eq_refl). Defined.

Lemma index_of_query_ip ip netmask i :
  0 <= ip < 2 ^ 32 -> 0 <= netmask <= 32 ->
  Z.land ip (2 ^ (32 - netmask) - 1) = 0 ->
  0 <= i < 2 ^ (32 - netmask) ->
  index_of_ip netmask (query_ip ip i) = Some i.
Proof.
  intros Hip Hmask Hbase Hi.
  assert (Hp : 2 ^ (32 - netmask) <= 2 ^ 32) by (apply Z.pow_le_mono_r; lia).
  unfold index_of_ip. rewrite host_mask_u64_ones by done. simpl. f_equal.
  rewrite query_ip_lor by lia.
  rewrite Z.land_lor_distr_l, Z.ones_equiv, <- Z.sub_1_r, Hbase, Z.lor_0_l.
  rewrite Z.sub_1_r, <- Z.ones_equiv, Z.land_ones by lia.
  apply Z.mod_small. lia.
Qed.

(** X13: under a base address with no host bit set, two different
    requests among the first [2^(32-netmask)] never carry the same label:
    the name of a query tells which query it is. *)
Theorem query_labels_distinct ip netmask i j :
  0 <= ip < 2 ^ 32 -> 0 <= netmask <= 32 ->
  Z.land ip (2 ^ (32 - netmask) - 1) = 0 ->
  0 <= i < 2 ^ (32 - netmask) -> 0 <= j < 2 ^ (32 - netmask) ->
  i <> j ->
  label_of_ip (query_ip ip i) <> label_of_ip (query_ip ip j).
Proof.
  intros Hip Hmask Hbase Hi Hj Hne Hlabel. apply Hne.
  assert (Haddr : query_ip ip i = query_ip ip j).
  { pose proof (ip_of_temp_label_of_ip _ (query_ip_range ip i)) as Ei.
    pose proof (ip_of_temp_label_of_ip _ (query_ip_range ip j)) as Ej.
    rewrite Hlabel in Ei. congruence. }
  pose proof (index_of_query_ip ip netmask i Hip Hmask Hbase Hi) as Ei.
  pose proof (index_of_query_ip ip netmask j Hip Hmask Hbase Hj) as Ej.
  rewrite Haddr in Ei. congruence.
Qed.

Lemma query_labels_distinct_witness :
  label_of_ip (query_ip Scenario.base_ip 1)
  <> label_of_ip (query_ip Scenario.base_ip 255).
Proof.
  apply (query_labels_distinct Scenario.base_ip 24 1 255);
    [vm_compute; split; discriminate || reflexivity
    |lia|reflexivity|simpl; lia|simpl; lia|lia].
Defined.

(** ** The question of the template *)

Lemma string_app_assoc (a b c : string) :
  ((a ++ b) ++ c)%string = (a ++ (b ++ c))%string.
Proof. induction a as [|x a IH]; simpl; [done|]. by rewrite IH. Qed.

Lemma string_app_nil_r (a : string) : (a ++ "")%string = a.
Proof. induction a as [|x a IH]; simpl; [done|]. by rewrite IH. Qed.

Lemma string_length_app (a b : string) :
  String.length (a ++ b) = (String.length a + String.length b)%nat.
Proof. induction a as [|x a IH]; simpl; [done|]. by rewrite IH. Qed.

Lemma string_app_not_empty (a : string) c b :
  (a ++ String c b)%string <> EmptyString.
Proof. by destruct a. Qed.

(** [strtok] reads through a run without dots. *)
Lemma strtok_all_run label : forall s token,
  Forall (fun c => is_dot c = false) (list_ascii_of_string label) ->
  strtok_all (label ++ s) token = strtok_all s (token ++ label).
Proof.
  induction label as [|c label IH]; intros s token Hplain; simpl.
  - by rewrite string_app_nil_r.
  - simpl in Hplain. apply Forall_cons in Hplain as [Hc Hplain].
    rewrite Hc, IH by done.
    by rewrite string_app_assoc.
Qed.

Lemma strtok_all_label label s :
  plain_label label ->
  strtok_all (label ++ "." ++ s) "" = label :: strtok_all s "".
Proof.
  intros [Hne Hplain]. rewrite strtok_all_run by done. simpl.
  destruct (String.eqb_spec label ""); done.
Qed.

Lemma strtok_all_labels labels :
  Forall plain_label labels -> strtok_all (fqdn labels) "" = labels.
Proof.
  induction 1 as [|label labels Hlabel _ IH]; [done|].
  change (fqdn (label :: labels)) with (label ++ "." ++ fqdn labels)%string.
  by rewrite strtok_all_label, IH.
Qed.

(** X14: the loop of [strtok] calls takes a name written with a dot
    after every label apart into just these labels, when no label is empty
    or holds a dot. *)
Theorem strtok_all_fqdn labels :
  Forall plain_label labels -> strtok_all (fqdn labels) "" = labels.
Proof. apply strtok_all_labels. Qed.

Lemma strtok_all_fqdn_witness :
  strtok_all (fqdn ["dns64perf"; "test"]%string) ""
  = ["dns64perf"; "test"]%string.
Proof.
  apply strtok_all_fqdn.
  repeat (constructor; [split; [discriminate|repeat constructor]|]).
  constructor.
Defined.

Lemma length_bytes_of label : length (bytes_of label) = String.length label.
Proof.
  unfold bytes_of. rewrite length_fmap.
  induction label as [|c label IH]; simpl; [done|]. by rewrite IH.
Qed.

Lemma length_encode_labels labels :
  length (encode_labels labels) = S (String.length (fqdn labels)).
Proof.
  induction labels as [|label labels IH]; [done|].
  change (fqdn (label :: labels)) with (label ++ "." ++ fqdn labels)%string.
  simpl encode_labels. simpl length.
  rewrite length_app, length_bytes_of, IH, string_length_app. simpl. lia.
Qed.

(** X15: for a name written with a dot after every label (no label
    empty or holding a dot) the name part of the question takes one octet
    more than the name has characters, and the question four more after
    that for the type and the class. *)
Theorem question_bytes_length qtype qclass labels :
  Forall plain_label labels ->
  length (question_bytes qtype qclass (fqdn labels))
  = (String.length (fqdn labels) + 5)%nat.
Proof.
  intros Hplain. unfold question_bytes.
  rewrite strtok_all_labels by done.
  rewrite !length_app, length_encode_labels. simpl. lia.
Qed.

Lemma question_bytes_length_witness :
  length (question_bytes 28 1 (fqdn ["dns64perf"; "test"]%string))
  = (String.length (fqdn ["dns64perf"; "test"]%string) + 5)%nat.
Proof.
  apply question_bytes_length.
  repeat (constructor; [split; [discriminate|repeat constructor]|]).
  constructor.
Defined.

Lemma bytes_of_inj l1 l2 : bytes_of l1 = bytes_of l2 -> l1 = l2.
Proof.
  unfold bytes_of. intros H.
  rewrite <- (string_of_list_ascii_of_string l1),
          <- (string_of_list_ascii_of_string l2).
  f_equal. revert H.
  generalize (list_ascii_of_string l1) (list_ascii_of_string l2).
  intros a. induction a as [|x a IH]; intros [|y b]; simpl; try done.
  intros [= Hxy Hab]. f_equal; [|by apply IH].
  apply N2Z.inj in Hxy.
  rewrite <- (ascii_N_embedding x), <- (ascii_N_embedding y). by rewrite Hxy.
Qed.

(** X16: the name part of the question tells the labels it was made
    of: two lists of labels, each label from 1 to 255 characters long, that
    encode to the same octets are the same list. *)
Theorem encode_labels_inj labels1 : forall labels2,
  Forall short_label labels1 -> Forall short_label labels2 ->
  encode_labels labels1 = encode_labels labels2 -> labels1 = labels2.
Proof.
  assert (Hlen : forall label, short_label label ->
            uint8 (Z.of_nat (String.length label))
            = Z.of_nat (String.length label)).
  { intros label Hs. unfold short_label in Hs. unfold uint8.
    apply Z.mod_small. lia. }
  induction labels1 as [|l1 labels1 IH]; intros [|l2 labels2] H1 H2 Henc.
  - done.
  - apply Forall_cons in H2 as [Hs _]. simpl in Henc.
    injection Henc as Hz _. rewrite Hlen in Hz by done.
    unfold short_label in Hs. lia.
  - apply Forall_cons in H1 as [Hs _]. simpl in Henc.
    injection Henc as Hz _. rewrite Hlen in Hz by done.
    unfold short_label in Hs. lia.
  - apply Forall_cons in H1 as [Hs1 H1]. apply Forall_cons in H2 as [Hs2 H2].
    simpl in Henc. injection Henc as Hz Hrest.
    rewrite !Hlen in Hz by done.
    apply app_inj_1 in Hrest as [Hb Hrest];
      [|rewrite !length_bytes_of; lia].
    f_equal; [by apply bytes_of_inj|by apply IH].
Qed.

Lemma encode_labels_inj_witness :
  ["dns64perf"; "test"]%string = ["dns64perf"; "test"]%string.
Proof.
  apply encode_labels_inj; [| |reflexivity];
    repeat (constructor; [unfold short_label; simpl; lia|]); constructor.
Defined.

(** ** The reporters after a run *)

Lemma int_add_Some a b c : int_add a b = Some c -> c = a + b /\ a + b <= INT_MAX.
Proof.
  unfold int_add, in_int.
  destruct (INT_MIN <=? a + b); simpl; [|done].
  destruct (Z.leb_spec (a + b) INT_MAX); [|done].
  by intros [= <-].
Qed.

Lemma write_loop_rows ip tests : forall n t rows t',
  0 <= n <= INT_MAX ->
  write_loop ip n tests t = Ret rows t' ->
  t' = t /\
  n + Z.of_nat (length tests) <= INT_MAX /\
  row_label <$> rows = burst_labels ip n (Z.of_nat (length tests)) /\
  Forall2 row_of rows tests.
Proof.
  assert (Hmax : INT_MAX < 2 ^ 32) by done.
  induction tests as [|query tests IH]; intros n t rows t' Hn.
  - simpl. intros [= <- <-]. split; [done|]. split; [lia|].
    split; [done|constructor].
  - simpl write_loop. unfold bind at 1. unfold defined at 1.
    destruct (int_add n 1) as [n'|] eqn:Hadd; [|done].
    apply int_add_Some in Hadd as [-> Hn'].
    unfold bind at 1. unfold rtt_count, defined.
    destruct (rtt_ query) as [r|] eqn:Hr; [|done].
    unfold bind at 1.
    destruct (write_loop ip (n + 1) tests t) as [rows' t1| |] eqn:Hrows;
      [|done|done].
    apply IH in Hrows as (-> & Hlen & Hl & Hall); [|lia].
    unfold ret. intros [= <- <-]. split; [done|].
    simpl length. split; [lia|]. split.
    + rewrite fmap_cons, Hl. simpl.
      rewrite (burst_labels_cons ip n) by lia.
      unfold query_ip. rewrite (uint32_id n) by lia.
      do 2 f_equal. lia.
    + constructor; [|done]. unfold row_of. simpl.
      do 3 (split; [done|]). by exists r.
Qed.

(** X17: when [write] returns, there are at most [INT_MAX] records (the
    counter of the rows is an [int]) and the report has one row for each
    record, in the order of the records; row number [i] is named by the
    address [ip_ | i] and carries the two flags of record [i] and its send
    time and round-trip time, each as [%lu] prints it: as an unsigned 64-bit
    number; the tester is left as it is. *)
Theorem write_rows t rows t' :
  write t = Ret rows t' ->
  t' = t /\
  Z.of_nat (length (tests_ t)) <= INT_MAX /\
  row_label <$> rows = burst_labels (ip_ t) 0 (Z.of_nat (length (tests_ t))) /\
  Forall2 row_of rows (tests_ t).
Proof.
  unfold write, bind, get. intros H.
  apply write_loop_rows in H as (-> & Hlen & Hl & Hall); [|done].
  split; [done|]. split; [lia|]. split; [done|exact Hall].
Qed.

Lemma write_rows_witness :
  exists rows,
    write Examples.all_answered = Ret rows Examples.all_answered /\
    row_label <$> rows = burst_labels Scenario.base_ip 0 4.
Proof.
  eexists. split; [vm_compute; reflexivity|].
  refine (proj1 (proj2 (proj2
    (write_rows Examples.all_answered _ Examples.all_answered _)))).
  vm_compute. reflexivity.
Defined.

Section ReportAfterRun.

Variable sscanf_addr : string -> option octets.


End ReportAfterRun.


Lemma true_count_le_length flag tests :
  true_count flag tests <= Z.of_nat (length tests).
Proof.
  unfold true_count. induction tests as [|q tests IH]; simpl; [done|].
  destruct (flag q); simpl; lia.
Qed.

(** X19: with fewer than 65536 records the two counts [display] prints
    are the numbers of received and of answered records themselves, and
    neither is above the number of queries printed beside them. *)
Theorem display_counts_exact pow t s t' :
  Z.of_nat (length (tests_ t)) < 2 ^ 16 ->
  display pow t = Ret s t' ->
  num_received s = true_count received_ (tests_ t) /\
  num_answered s = true_count answered_ (tests_ t) /\
  num_received s <= sent s /\ num_answered s <= sent s.
Proof.
  intros Hlen H. apply display_Ret in H as (_ & Hsent & Hc & _).
  rewrite count_loop_counts in Hc. injection Hc as Hr Ha.
  pose proof (true_count_le_length received_ (tests_ t)).
  pose proof (true_count_le_length answered_ (tests_ t)).
  pose proof (true_count_nonneg received_ (tests_ t)).
  pose proof (true_count_nonneg answered_ (tests_ t)).
  rewrite Z.mod_small in Hr, Ha by lia. lia.
Qed.

Lemma display_counts_exact_witness :
  exists s,
    display Scenario.pow Scenario.answered_twice = Ret s Scenario.answered_twice /\
    num_received s = true_count received_ (tests_ Scenario.answered_twice).
Proof.
  eexists. split; [vm_compute; reflexivity|].
  refine (proj1 (display_counts_exact Scenario.pow Scenario.answered_twice _
                   Scenario.answered_twice ltac:(simpl; lia) _)).
  vm_compute. reflexivity.
Defined.
